(** * DAV_BC: the NFT hash chain of [app3.py] (and its predecessor [app2.py])

    A shallow embedding of the blockchain core of the two Streamlit
    applications: [Block], [Blockchain] (genesis, [add_block],
    [is_chain_valid], [to_dict]/[save]/[load]) and the wallet helpers
    ([generate_wallet], [sign_art], [verify_signature]).

    Conventions of the embedding.
    - Python values that can live in a block or in the storage file are the
      values of the JSON domain: [json].  Floats are left out.
    - A Python [str] is a Rocq [string] whose characters are the code points
      below 256; [bytes] are lists of [byte].
    - A raised exception is the [Raise] branch of [result].
    - [str(datetime.now())] is an input of the operations that read the
      clock; the storage file is an [option json]: [None] when
      [os.path.exists] is false, otherwise the value [json.load] returns.
      [json.dump] followed by [json.load] is the identity on [json].
    - The libraries are embedded as far as the properties below need them:
      [hashlib.sha256] (FIPS 180-4), [json.dumps] with [sort_keys=True],
      [base64.b64encode] and [base64.b64decode]; [ecdsa] is an interface. *)

From Stdlib Require Import ZArith Lia Bool List String Ascii.
From Stdlib.Strings Require Import Byte.
From Stdlib Require Import DecimalString DecimalPos DecimalZ.
From stdpp Require Import base list strings sorting.

Local Open Scope string_scope.
Local Open Scope Z_scope.
Local Open Scope list_scope.

(** ** Exceptions *)

Inductive exn : Type :=
| KeyError (key : string)
| IndexError
| TypeError
| AttributeError
| BinasciiError
| ValueError
| BadSignatureError
| MalformedSignature.

Inductive result (A : Type) : Type :=
| Ok (a : A)
| Raise (e : exn).

Arguments Ok {A} a.
Arguments Raise {A} e.

#[global] Instance result_ret : MRet result := fun A a => Ok a.

#[global] Instance result_bind : MBind result := fun A B k m =>
  match m with
  | Ok a => k a
  | Raise e => Raise e
  end.

(** [try: body except: handler], the bare [except] that catches everything. *)
Definition try_except {A : Type} (body : result A) (handler : A) : result A :=
  match body with
  | Ok a => Ok a
  | Raise _ => Ok handler
  end.

(** ** Bytes and strings *)

Definition bytes : Type := list byte.

#[global] Instance byte_eq_decision : EqDecision byte := Byte.byte_eq_dec.

Definition byte_of_Z (z : Z) : byte :=
  match Byte.of_N (Z.to_N (z mod 256)) with
  | Some b => b
  | None => x00
  end.

Definition Z_of_byte (b : byte) : Z := Z.of_N (Byte.to_N b).

Definition code_point (c : ascii) : Z := Z.of_N (N_of_ascii c).

Definition chr (z : Z) : ascii := ascii_of_N (Z.to_N z).

(** [str.encode()]: UTF-8, for code points below 256. *)
Definition utf8_char (c : ascii) : bytes :=
  let n := code_point c in
  if n <? 128 then [byte_of_Z n]
  else [byte_of_Z (Z.lor 192 (Z.shiftr n 6)); byte_of_Z (Z.lor 128 (Z.land n 63))].

Fixpoint encode (s : string) : bytes :=
  match s with
  | EmptyString => []
  | String c s' => utf8_char c ++ encode s'
  end.

(** [bytes.decode()] of ASCII bytes (the output of [b64encode]). *)
Definition decode_ascii (bs : bytes) : string :=
  string_of_list_ascii (List.map ascii_of_byte bs).

Definition hex_digit (n : Z) : ascii :=
  if n <? 10 then chr (48 + n) else chr (87 + n).

(** ** hashlib.sha256 *)

Module SHA256.

Definition mask32 : Z := 0xffffffff.
Definition add32 (x y : Z) : Z := Z.land (x + y) mask32.
Definition rotr (n x : Z) : Z :=
  Z.lor (Z.shiftr x n) (Z.land (Z.shiftl x (32 - n)) mask32).
Definition shr (n x : Z) : Z := Z.shiftr x n.
Definition not32 (x : Z) : Z := Z.lxor x mask32.

Definition Ch (x y z : Z) : Z := Z.lxor (Z.land x y) (Z.land (not32 x) z).
Definition Maj (x y z : Z) : Z :=
  Z.lxor (Z.lxor (Z.land x y) (Z.land x z)) (Z.land y z).
Definition Sigma0 (x : Z) : Z := Z.lxor (Z.lxor (rotr 2 x) (rotr 13 x)) (rotr 22 x).
Definition Sigma1 (x : Z) : Z := Z.lxor (Z.lxor (rotr 6 x) (rotr 11 x)) (rotr 25 x).
Definition sigma0 (x : Z) : Z := Z.lxor (Z.lxor (rotr 7 x) (rotr 18 x)) (shr 3 x).
Definition sigma1 (x : Z) : Z := Z.lxor (Z.lxor (rotr 17 x) (rotr 19 x)) (shr 10 x).

(** The constants are defined as in FIPS 180-4: the first 32 bits of the
    fractional parts of the cube roots (square roots, for the initial hash
    value) of the first primes. *)
Definition is_prime (p : Z) : bool :=
  forallb (fun d => negb (p mod d =? 0)) (List.map Z.of_nat (seq 2 (Z.to_nat p - 2))).

Definition primes (n : nat) : list Z :=
  firstn n (List.filter is_prime (List.map Z.of_nat (seq 2 310))).

(** The floor of the cube root of [n], bit by bit from the top. *)
Fixpoint cube_root (bits : nat) (n r : Z) : Z :=
  match bits with
  | O => r
  | S b =>
      let r' := r + Z.shiftl 1 (Z.of_nat b) in
      cube_root b n (if r' * r' * r' <=? n then r' else r)
  end.

Definition frac_cube_root (p : Z) : Z := Z.land (cube_root 40 (Z.shiftl p 96) 0) mask32.
Definition frac_square_root (p : Z) : Z := Z.land (Z.sqrt (Z.shiftl p 64)) mask32.

Definition K : list Z := Eval vm_compute in List.map frac_cube_root (primes 64).

Definition H0 : list Z := Eval vm_compute in List.map frac_square_root (primes 8).

(** Big-endian bytes of [x], [n] of them. *)
Fixpoint be_bytes (n : nat) (x : Z) : list Z :=
  match n with
  | O => []
  | S n' => Z.land (Z.shiftr x (8 * Z.of_nat n')) 255 :: be_bytes n' x
  end.

(** Message, the bit 1, zeros up to 56 mod 64, the bit length on 8 bytes. *)
Definition pad (msg : list Z) : list Z :=
  let len := Z.of_nat (length msg) in
  let zeros := Z.to_nat ((55 - len) mod 64) in
  msg ++ 128 :: repeat 0 zeros ++ be_bytes 8 (8 * len).

Fixpoint words (fuel : nat) (bs : list Z) : list Z :=
  match fuel, bs with
  | S fuel', b0 :: b1 :: b2 :: b3 :: rest =>
      (Z.shiftl b0 24 + Z.shiftl b1 16 + Z.shiftl b2 8 + b3) :: words fuel' rest
  | _, _ => []
  end.

Definition word_at (w : list Z) (i : nat) : Z := nth i w 0.

(** The message schedule: [w] holds W_0 .. W_(t-1), [n] words are added. *)
Fixpoint schedule (n : nat) (w : list Z) : list Z :=
  match n with
  | O => w
  | S n' =>
      let t := length w in
      let wt := add32 (add32 (sigma1 (word_at w (t - 2))) (word_at w (t - 7)))
                      (add32 (sigma0 (word_at w (t - 15))) (word_at w (t - 16))) in
      schedule n' (w ++ [wt])
  end.

Record regs : Type := Regs { ra : Z; rb : Z; rc : Z; rd : Z; re : Z; rf : Z; rg : Z; rh : Z }.

Definition round (s : regs) (kw : Z * Z) : regs :=
  let '(k, w) := kw in
  let t1 := add32 (add32 (add32 (rh s) (Sigma1 (re s))) (add32 (Ch (re s) (rf s) (rg s)) k)) w in
  let t2 := add32 (Sigma0 (ra s)) (Maj (ra s) (rb s) (rc s)) in
  Regs (add32 t1 t2) (ra s) (rb s) (rc s) (add32 (rd s) t1) (re s) (rf s) (rg s).

Definition compress (h : regs) (block : list Z) : regs :=
  let w := schedule 48 block in
  let s := fold_left round (combine K w) h in
  Regs (add32 (ra h) (ra s)) (add32 (rb h) (rb s)) (add32 (rc h) (rc s))
       (add32 (rd h) (rd s)) (add32 (re h) (re s)) (add32 (rf h) (rf s))
       (add32 (rg h) (rg s)) (add32 (rh h) (rh s)).

Fixpoint blocks (fuel : nat) (h : regs) (ws : list Z) : regs :=
  match fuel, ws with
  | S fuel', _ :: _ => blocks fuel' (compress h (firstn 16 ws)) (skipn 16 ws)
  | _, _ => h
  end.

Definition init : regs :=
  Regs (word_at H0 0) (word_at H0 1) (word_at H0 2) (word_at H0 3)
       (word_at H0 4) (word_at H0 5) (word_at H0 6) (word_at H0 7).

Definition digest (msg : bytes) : list Z :=
  let p := pad (List.map Z_of_byte msg) in
  let ws := words (length p) p in
  let h := blocks (length ws) init ws in
  flat_map (be_bytes 4) [ra h; rb h; rc h; rd h; re h; rf h; rg h; rh h].

Fixpoint hex (bs : list Z) : string :=
  match bs with
  | [] => EmptyString
  | b :: bs' => String (hex_digit (Z.shiftr b 4)) (String (hex_digit (Z.land b 15)) (hex bs'))
  end.

(** [hashlib.sha256(msg).hexdigest()] *)
Definition hexdigest (msg : bytes) : string := hex (digest msg).

End SHA256.


(** ** Python values of the JSON domain *)

Set Warnings "-register-all".

Inductive json : Type :=
| JNull
| JBool (b : bool)
| JInt (n : Z)
| JStr (s : string)
| JList (items : list json)
| JObj (fields : list (string * json)).

(** A [dict] with [str] keys, in insertion order. *)
Definition dict : Type := list (string * json).

Fixpoint dict_get (k : string) (d : dict) : option json :=
  match d with
  | [] => None
  | (k', v) :: d' => if String.eqb k k' then Some v else dict_get k d'
  end.

(** [d.pop(k, None)], the value dropped. *)
Fixpoint dict_pop (k : string) (d : dict) : dict :=
  match d with
  | [] => []
  | (k', v) :: d' => if String.eqb k k' then d' else (k', v) :: dict_pop k d'
  end.

(** [a == b] on JSON values: [True == 1], dicts compare without order. *)
Fixpoint py_eq (a b : json) {struct a} : bool :=
  match a, b with
  | JNull, JNull => true
  | JBool x, JBool y => Bool.eqb x y
  | JBool x, JInt n => n =? (if x then 1 else 0)
  | JInt n, JBool x => n =? (if x then 1 else 0)
  | JInt x, JInt y => x =? y
  | JStr x, JStr y => String.eqb x y
  | JList xs, JList ys =>
      (fix items_eq (xs ys : list json) {struct xs} : bool :=
         match xs, ys with
         | [], [] => true
         | x :: xs', y :: ys' => py_eq x y && items_eq xs' ys'
         | _, _ => false
         end) xs ys
  | JObj xs, JObj ys =>
      (length xs =? length ys)%nat &&
      (fix fields_eq (xs : dict) {struct xs} : bool :=
         match xs with
         | [] => true
         | (k, v) :: xs' =>
             match dict_get k ys with
             | Some w => py_eq v w
             | None => false
             end && fields_eq xs'
         end) xs
  | _, _ => false
  end.

Definition py_ne (a b : json) : bool := negb (py_eq a b).

(** [v[key]] for a [str] key. *)
Definition subscript (v : json) (key : string) : result json :=
  match v with
  | JObj d =>
      match dict_get key d with
      | Some x => Ok x
      | None => Raise (KeyError key)
      end
  | _ => Raise TypeError
  end.

(** [v.get(key, default)] *)
Definition get_method (v : json) (key : string) (default : json) : result json :=
  match v with
  | JObj d =>
      match dict_get key d with
      | Some x => Ok x
      | None => Ok default
      end
  | _ => Raise AttributeError
  end.

Fixpoint chars (s : string) : list json :=
  match s with
  | EmptyString => []
  | String c s' => JStr (String c EmptyString) :: chars s'
  end.

(** The items a [for] loop over [v] visits. *)
Definition iterate (v : json) : result (list json) :=
  match v with
  | JList l => Ok l
  | JObj d => Ok (List.map (fun kv => JStr (fst kv)) d)
  | JStr s => Ok (chars s)
  | _ => Raise TypeError
  end.

(** ** json.dumps(v, sort_keys=True) *)

Definition dquote : ascii := "034"%char.
Definition backslash : ascii := "092"%char.

Definition escape_char (c : ascii) : string :=
  let n := code_point c in
  if n =? 34 then String backslash (String dquote EmptyString)
  else if n =? 92 then String backslash (String backslash EmptyString)
  else if n =? 10 then String backslash "n"
  else if n =? 13 then String backslash "r"
  else if n =? 9 then String backslash "t"
  else if n =? 8 then String backslash "b"
  else if n =? 12 then String backslash "f"
  else if (n <? 32) || (126 <? n) then
    String backslash
      (String "u" (String "0" (String "0"
         (String (hex_digit (Z.shiftr n 4)) (String (hex_digit (Z.land n 15)) EmptyString)))))
  else String c EmptyString.

Fixpoint escape (s : string) : string :=
  match s with
  | EmptyString => EmptyString
  | String c s' => escape_char c +:+ escape s'
  end.

Definition quote (s : string) : string :=
  String dquote (escape s +:+ String dquote EmptyString).

Definition repr_int (n : Z) : string := NilZero.string_of_int (Z.to_int n).

Fixpoint join (sep : string) (l : list string) : string :=
  match l with
  | [] => EmptyString
  | [x] => x
  | x :: l' => x +:+ sep +:+ join sep l'
  end.

(** Keys in code point order; equal keys keep their order. *)
Fixpoint insert_item {A : Type} (x : string * A) (l : list (string * A)) : list (string * A) :=
  match l with
  | [] => [x]
  | y :: l' => if String.ltb (fst x) (fst y) then x :: l else y :: insert_item x l'
  end.

Definition sort_items {A : Type} (l : list (string * A)) : list (string * A) :=
  fold_left (fun acc x => insert_item x acc) l [].

(** The order [sort_items] puts the items in. *)
Definition key_before {A : Type} (x y : string * A) : Prop :=
  String.ltb (fst x) (fst y) = true.

Definition dumps_item (kv : string * string) : string :=
  quote (fst kv) +:+ ": " +:+ snd kv.

Fixpoint dumps (v : json) : string :=
  match v with
  | JNull => "null"
  | JBool true => "true"
  | JBool false => "false"
  | JInt n => repr_int n
  | JStr s => quote s
  | JList l => "[" +:+ join ", " (List.map dumps l) +:+ "]"
  | JObj d =>
      "{" +:+ join ", " (List.map dumps_item
                          (sort_items (List.map (fun kv => (fst kv, dumps (snd kv))) d)))
          +:+ "}"
  end.

(** *** What [dumps] determines *)

(** The value with every dictionary in key order. *)
Fixpoint canon (v : json) : json :=
  match v with
  | JList l => JList (List.map canon l)
  | JObj d => JObj (sort_items (List.map (fun kv => (fst kv, canon (snd kv))) d))
  | _ => v
  end.

(** Equal up to the order of dictionary keys. *)
Definition same_value (x y : json) : Prop := canon x = canon y.

(** The text of [v] with its dictionaries in the order they have:
    [json.dumps(v)] without [sort_keys]. *)
Fixpoint render (v : json) : string :=
  match v with
  | JNull => "null"
  | JBool true => "true"
  | JBool false => "false"
  | JInt n => repr_int n
  | JStr s => quote s
  | JList l => "[" +:+ join ", " (List.map render l) +:+ "]"
  | JObj d =>
      "{" +:+ join ", " (List.map dumps_item
                          (List.map (fun kv => (fst kv, render (snd kv))) d))
          +:+ "}"
  end.

Definition is_digit (c : ascii) : bool :=
  let n := code_point c in (48 <=? n) && (n <=? 57).

(** The first character of a printed value tells its constructor. *)
Definition json_kind (v : json) : nat :=
  match v with
  | JNull => 0
  | JBool _ => 1
  | JInt _ => 2
  | JStr _ => 3
  | JList _ => 4
  | JObj _ => 5
  end.

Definition start_kind (c : ascii) : nat :=
  let n := code_point c in
  if n =? 110 then 0
  else if (n =? 116) || (n =? 102) then 1
  else if is_digit c || (n =? 45) then 2
  else if n =? 34 then 3
  else if n =? 91 then 4
  else if n =? 123 then 5
  else 6.

(** A text that cannot continue a number. *)
Definition terminator (s : string) : Prop :=
  match s with
  | EmptyString => True
  | String c _ => is_digit c = false
  end.

Definition hex_value (c : ascii) : Z :=
  let n := code_point c in if n <? 58 then n - 48 else n - 87.

(** A value followed by a terminator is read in one way only. *)
Definition read_once (x : json) : Prop :=
  forall (y : json) (u v : string),
    terminator u -> terminator v ->
    render x +:+ u = render y +:+ v -> x = y /\ u = v.

(** Reads one character of an escaped string back; [None] at the closing
    quote. *)
Definition unescape_step (s : string) : option (ascii * string) :=
  match s with
  | EmptyString => None
  | String a r =>
      if code_point a =? 34 then None
      else if code_point a =? 92 then
        match r with
        | String b r' =>
            let n := code_point b in
            if n =? 117 then
              match r' with
              | String _ (String _ (String h (String l r''))) =>
                  Some (chr (16 * hex_value h + hex_value l), r'')
              | _ => None
              end
            else if n =? 110 then Some (chr 10, r')
            else if n =? 114 then Some (chr 13, r')
            else if n =? 116 then Some (chr 9, r')
            else if n =? 98 then Some (chr 8, r')
            else if n =? 102 then Some (chr 12, r')
            else Some (b, r')
        | EmptyString => None
        end
      else Some (a, r)
  end.


(** ** Lists as Python uses them *)

(** [l[i]] for [i >= 0] *)
Definition getitem {A : Type} (l : list A) (i : nat) : result A :=
  match l !! i with
  | Some x => Ok x
  | None => Raise IndexError
  end.

(** [l[-1]] *)
Definition getitem_last {A : Type} (l : list A) : result A :=
  match last l with
  | Some x => Ok x
  | None => Raise IndexError
  end.

(** ** app3.py *)

Module App3.

Record Block : Type := mkBlock {
  index : json;
  timestamp : json;
  art_hash : json;
  owner_name : json;
  owner_pubkey : json;
  signature : json;
  metadata : json;
  previous_hash : json;
  nonce : json;
  hash : json
}.

(** [self.__dict__] of a constructed block: the attributes in the order
    [__init__] assigns them. *)
Definition __dict__ (self : Block) : dict :=
  [ ("index", index self); ("timestamp", timestamp self);
    ("art_hash", art_hash self); ("owner_name", owner_name self);
    ("owner_pubkey", owner_pubkey self); ("signature", signature self);
    ("metadata", metadata self); ("previous_hash", previous_hash self);
    ("nonce", nonce self); ("hash", hash self) ].

(** The body of [compute_hash], on the attribute dictionary it reads:
    copy, [pop('hash', None)], [json.dumps(..., sort_keys=True)], SHA-256. *)
Definition compute_hash_of (d : dict) : string :=
  let block_dict := dict_pop "hash" d in
  SHA256.hexdigest (encode (dumps (JObj block_dict))).

Definition compute_hash (self : Block) : string :=
  compute_hash_of (__dict__ self).

(** [Block.__init__]: when [compute_hash] runs, [self.hash] is not yet
    an attribute. *)
Definition Block_init
    (index timestamp art_hash owner_name owner_pubkey signature metadata previous_hash : json)
  : Block :=
  let d := [ ("index", index); ("timestamp", timestamp); ("art_hash", art_hash);
             ("owner_name", owner_name); ("owner_pubkey", owner_pubkey);
             ("signature", signature); ("metadata", metadata);
             ("previous_hash", previous_hash); ("nonce", JInt 0) ] in
  {| index := index; timestamp := timestamp; art_hash := art_hash;
     owner_name := owner_name; owner_pubkey := owner_pubkey;
     signature := signature; metadata := metadata;
     previous_hash := previous_hash; nonce := JInt 0;
     hash := JStr (compute_hash_of d) |}.

(** Attribute assignments on an existing block. *)
Definition set_index (self : Block) (v : json) : Block :=
  mkBlock v (timestamp self) (art_hash self) (owner_name self) (owner_pubkey self)
          (signature self) (metadata self) (previous_hash self) (nonce self) (hash self).
Definition set_timestamp (self : Block) (v : json) : Block :=
  mkBlock (index self) v (art_hash self) (owner_name self) (owner_pubkey self)
          (signature self) (metadata self) (previous_hash self) (nonce self) (hash self).
Definition set_art_hash (self : Block) (v : json) : Block :=
  mkBlock (index self) (timestamp self) v (owner_name self) (owner_pubkey self)
          (signature self) (metadata self) (previous_hash self) (nonce self) (hash self).
Definition set_owner_name (self : Block) (v : json) : Block :=
  mkBlock (index self) (timestamp self) (art_hash self) v (owner_pubkey self)
          (signature self) (metadata self) (previous_hash self) (nonce self) (hash self).
Definition set_owner_pubkey (self : Block) (v : json) : Block :=
  mkBlock (index self) (timestamp self) (art_hash self) (owner_name self) v
          (signature self) (metadata self) (previous_hash self) (nonce self) (hash self).
Definition set_signature (self : Block) (v : json) : Block :=
  mkBlock (index self) (timestamp self) (art_hash self) (owner_name self) (owner_pubkey self)
          v (metadata self) (previous_hash self) (nonce self) (hash self).
Definition set_metadata (self : Block) (v : json) : Block :=
  mkBlock (index self) (timestamp self) (art_hash self) (owner_name self) (owner_pubkey self)
          (signature self) v (previous_hash self) (nonce self) (hash self).
Definition set_nonce (self : Block) (v : json) : Block :=
  mkBlock (index self) (timestamp self) (art_hash self) (owner_name self) (owner_pubkey self)
          (signature self) (metadata self) (previous_hash self) v (hash self).
Definition set_hash (self : Block) (v : json) : Block :=
  mkBlock (index self) (timestamp self) (art_hash self) (owner_name self) (owner_pubkey self)
          (signature self) (metadata self) (previous_hash self) (nonce self) v.

Record Blockchain : Type := mkBlockchain { chain : list Block }.

Definition create_genesis_block (self : Blockchain) (now : string) : Blockchain :=
  let genesis_block :=
    Block_init (JInt 0) (JStr now) (JStr "0") (JStr "Genesis") JNull JNull
               (JObj [("title", JStr "Genesis Block")]) (JStr "0") in
  {| chain := chain self ++ [genesis_block] |}.

(** [Blockchain.__init__] *)
Definition Blockchain_init (now : string) : Blockchain :=
  create_genesis_block {| chain := [] |} now.

(** The new block and the chain after the append. *)
Definition add_block (self : Blockchain) (now : string)
    (art_hash owner_name owner_pubkey signature metadata : json)
  : result (Block * Blockchain) :=
  previous_block ← getitem_last (chain self);
  let new_block :=
    Block_init (JInt (Z.of_nat (length (chain self)))) (JStr now) art_hash owner_name
               owner_pubkey signature metadata (hash previous_block) in
  Ok (new_block, {| chain := chain self ++ [new_block] |}).

(** The loop of [is_chain_valid] over [range(1, len(self.chain))]. *)
Fixpoint is_chain_valid_loop (chain : list Block) (range : list nat) : result bool :=
  match range with
  | [] => Ok true
  | i :: range' =>
      prev ← getitem chain (i - 1)%nat;
      curr ← getitem chain i;
      if py_ne (hash curr) (JStr (compute_hash curr)) then Ok false
      else if py_ne (previous_hash curr) (hash prev) then Ok false
      else is_chain_valid_loop chain range'
  end.

Definition is_chain_valid (self : Blockchain) : result bool :=
  is_chain_valid_loop (chain self) (seq 1 (length (chain self) - 1)).

Definition to_dict (self : Blockchain) : json :=
  JList (List.map (fun block => JObj (__dict__ block)) (chain self)).

(** The storage file after [save]. *)
Definition save (self : Blockchain) : option json := Some (to_dict self).

(** One pass of the loop body of [load]. *)
Definition load_block (block_data : json) : result Block :=
  index ← subscript block_data "index";
  timestamp ← subscript block_data "timestamp";
  art_hash ← subscript block_data "art_hash";
  owner_name ← subscript block_data "owner_name";
  owner_pubkey ← get_method block_data "owner_pubkey" JNull;
  signature ← get_method block_data "signature" JNull;
  metadata ← subscript block_data "metadata";
  previous_hash ← subscript block_data "previous_hash";
  let block := Block_init index timestamp art_hash owner_name owner_pubkey signature
                          metadata previous_hash in
  nonce ← get_method block_data "nonce" (JInt 0);
  let block := set_nonce block nonce in
  h ← subscript block_data "hash";
  let block := set_hash block h in
  Ok block.

Fixpoint load_loop (items : list json) (chain : list Block) : result (list Block) :=
  match items with
  | [] => Ok chain
  | block_data :: items' =>
      block ← load_block block_data;
      load_loop items' (chain ++ [block])
  end.

Definition load (file : option json) (now : string) : result Blockchain :=
  match file with
  | Some data =>
      let blockchain := Blockchain_init now in
      let blockchain := {| chain := [] |} in
      items ← iterate data;
      chain' ← load_loop items (chain blockchain);
      Ok {| chain := chain' |}
  | None => Ok (Blockchain_init now)
  end.

(** *** Specification-side notions *)

(** What one pass of the loop of [is_chain_valid] requires of position [i]. *)
Definition link_ok (chain : list Block) (i : nat) : bool :=
  match chain !! (i - 1)%nat, chain !! i with
  | Some prev, Some curr =>
      py_eq (hash curr) (JStr (compute_hash curr))
      && py_eq (previous_hash curr) (hash prev)
  | _, _ => false
  end.

(** The stored hash of a block is the hash of its other attributes. *)
Definition hash_consistent (b : Block) : Prop :=
  hash b = JStr (compute_hash b).

(** The attributes [compute_hash] reads: all but [hash]. *)
Definition attributes (self : Block) : dict := dict_pop "hash" (__dict__ self).

(** Two blocks with the same attributes other than [hash], up to the order
    of dictionary keys. *)
Definition same_attributes (b b' : Block) : Prop :=
  same_value (JObj (attributes b)) (JObj (attributes b')).

(** The bytes [compute_hash] gives to SHA-256. *)
Definition hashed_bytes (self : Block) : bytes :=
  encode (dumps (JObj (attributes self))).

(** Chains reachable from the constructor by [add_block]. *)
Inductive created : Blockchain -> Prop :=
| created_init (now : string) : created (Blockchain_init now)
| created_add (self : Blockchain) (now : string)
    (art_hash owner_name owner_pubkey signature metadata : json)
    (new_block : Block) (self' : Blockchain) :
    created self ->
    add_block self now art_hash owner_name owner_pubkey signature metadata
      = Ok (new_block, self') ->
    created self'.

(** The keys [load] reads with [block_data[...]]. *)
Definition required_keys : list string :=
  [ "index"; "timestamp"; "art_hash"; "owner_name"; "metadata"; "previous_hash"; "hash" ].

End App3.

(** ** app2.py *)

Module App2.

Record Block : Type := mkBlock {
  index : json;
  timestamp : json;
  art_hash : json;
  owner : json;
  metadata : json;
  previous_hash : json;
  nonce : json;
  hash : json
}.

Definition __dict__ (self : Block) : dict :=
  [ ("index", index self); ("timestamp", timestamp self);
    ("art_hash", art_hash self); ("owner", owner self);
    ("metadata", metadata self); ("previous_hash", previous_hash self);
    ("nonce", nonce self); ("hash", hash self) ].

(** The body of [compute_hash] on the attribute dictionary it reads:
    [json.dumps(self.__dict__, sort_keys=True)], SHA-256.  Nothing is
    removed from the dictionary. *)
Definition compute_hash_of (d : dict) : string :=
  let block_string := dumps (JObj d) in
  SHA256.hexdigest (encode block_string).

Definition compute_hash (self : Block) : string :=
  compute_hash_of (__dict__ self).

Definition Block_init (index timestamp art_hash owner metadata previous_hash : json)
  : Block :=
  let d := [ ("index", index); ("timestamp", timestamp); ("art_hash", art_hash);
             ("owner", owner); ("metadata", metadata);
             ("previous_hash", previous_hash); ("nonce", JInt 0) ] in
  {| index := index; timestamp := timestamp; art_hash := art_hash; owner := owner;
     metadata := metadata; previous_hash := previous_hash; nonce := JInt 0;
     hash := JStr (compute_hash_of d) |}.

Definition set_nonce (self : Block) (v : json) : Block :=
  mkBlock (index self) (timestamp self) (art_hash self) (owner self)
          (metadata self) (previous_hash self) v (hash self).
Definition set_hash (self : Block) (v : json) : Block :=
  mkBlock (index self) (timestamp self) (art_hash self) (owner self)
          (metadata self) (previous_hash self) (nonce self) v.

Record Blockchain : Type := mkBlockchain { chain : list Block }.

Definition create_genesis_block (self : Blockchain) (now : string) : Blockchain :=
  let genesis_block :=
    Block_init (JInt 0) (JStr now) (JStr "0") (JStr "Genesis")
               (JObj [("title", JStr "Genesis Block")]) (JStr "0") in
  {| chain := chain self ++ [genesis_block] |}.

Definition Blockchain_init (now : string) : Blockchain :=
  create_genesis_block {| chain := [] |} now.

Definition add_block (self : Blockchain) (now : string) (art_hash owner metadata : json)
  : result (Block * Blockchain) :=
  previous_block ← getitem_last (chain self);
  let new_block :=
    Block_init (JInt (Z.of_nat (length (chain self)))) (JStr now) art_hash owner
               metadata (hash previous_block) in
  Ok (new_block, {| chain := chain self ++ [new_block] |}).

Fixpoint is_chain_valid_loop (chain : list Block) (range : list nat) : result bool :=
  match range with
  | [] => Ok true
  | i :: range' =>
      prev ← getitem chain (i - 1)%nat;
      curr ← getitem chain i;
      if py_ne (hash curr) (JStr (compute_hash curr)) then Ok false
      else if py_ne (previous_hash curr) (hash prev) then Ok false
      else is_chain_valid_loop chain range'
  end.

Definition is_chain_valid (self : Blockchain) : result bool :=
  is_chain_valid_loop (chain self) (seq 1 (length (chain self) - 1)).

Definition to_dict (self : Blockchain) : json :=
  JList (List.map (fun block => JObj (__dict__ block)) (chain self)).

Definition save (self : Blockchain) : option json := Some (to_dict self).

Definition load_block (block_data : json) : result Block :=
  index ← subscript block_data "index";
  timestamp ← subscript block_data "timestamp";
  art_hash ← subscript block_data "art_hash";
  owner ← subscript block_data "owner";
  metadata ← subscript block_data "metadata";
  previous_hash ← subscript block_data "previous_hash";
  let block := Block_init index timestamp art_hash owner metadata previous_hash in
  nonce ← get_method block_data "nonce" (JInt 0);
  let block := set_nonce block nonce in
  h ← subscript block_data "hash";
  let block := set_hash block h in
  Ok block.

Fixpoint load_loop (items : list json) (chain : list Block) : result (list Block) :=
  match items with
  | [] => Ok chain
  | block_data :: items' =>
      block ← load_block block_data;
      load_loop items' (chain ++ [block])
  end.

Definition load (file : option json) (now : string) : result Blockchain :=
  match file with
  | Some data =>
      let blockchain := Blockchain_init now in
      let blockchain := {| chain := [] |} in
      items ← iterate data;
      chain' ← load_loop items (chain blockchain);
      Ok {| chain := chain' |}
  | None => Ok (Blockchain_init now)
  end.

(** *** Specification-side notions *)

Definition link_ok (chain : list Block) (i : nat) : bool :=
  match chain !! (i - 1)%nat, chain !! i with
  | Some prev, Some curr =>
      py_eq (hash curr) (JStr (compute_hash curr))
      && py_eq (previous_hash curr) (hash prev)
  | _, _ => false
  end.

(** The keys [load] reads with [block_data[...]]. *)
Definition required_keys : list string :=
  [ "index"; "timestamp"; "art_hash"; "owner"; "metadata"; "previous_hash"; "hash" ].

End App2.

(** ** base64 *)

Module Base64.

(** The standard alphabet: sextet to character code, and back. *)
Definition table_b2a (n : Z) : Z :=
  if n <? 26 then 65 + n
  else if n <? 52 then 71 + n
  else if n <? 62 then n - 4
  else if n =? 62 then 43
  else 47.

Definition table_a2b (c : Z) : option Z :=
  if (65 <=? c) && (c <=? 90) then Some (c - 65)
  else if (97 <=? c) && (c <=? 122) then Some (c - 71)
  else if (48 <=? c) && (c <=? 57) then Some (c + 4)
  else if c =? 43 then Some 62
  else if c =? 47 then Some 63
  else None.

Definition pad_char : Z := 61.

(** [binascii.b2a_base64] without the newline: three bytes give four
    characters, a last group of one or two bytes is padded with [=]. *)
Fixpoint b2a (bs : list Z) : list Z :=
  match bs with
  | [] => []
  | [a] =>
      [ table_b2a (Z.shiftr a 2); table_b2a (Z.shiftl (Z.land a 3) 4); pad_char; pad_char ]
  | [a; b] =>
      [ table_b2a (Z.shiftr a 2);
        table_b2a (Z.lor (Z.shiftl (Z.land a 3) 4) (Z.shiftr b 4));
        table_b2a (Z.shiftl (Z.land b 15) 2); pad_char ]
  | a :: b :: c :: rest =>
      table_b2a (Z.shiftr a 2)
      :: table_b2a (Z.lor (Z.shiftl (Z.land a 3) 4) (Z.shiftr b 4))
      :: table_b2a (Z.lor (Z.shiftl (Z.land b 15) 2) (Z.shiftr c 6))
      :: table_b2a (Z.land c 63)
      :: b2a rest
  end.

(** [binascii.a2b_base64] in its default mode: characters outside the
    alphabet are skipped, a complete pad sequence ends the input, an
    incomplete last group raises [binascii.Error]. *)
Fixpoint a2b (cs : list Z) (quad_pos : nat) (leftchar : Z) (pads : nat) (out : list Z)
  : result (list Z) :=
  match cs with
  | [] => match quad_pos with O => Ok out | _ => Raise BinasciiError end
  | this_ch :: cs' =>
      if this_ch =? pad_char then
        if (2 <=? quad_pos)%nat then
          if (4 <=? quad_pos + S pads)%nat then Ok out
          else a2b cs' quad_pos leftchar (S pads) out
        else a2b cs' quad_pos leftchar pads out
      else
        match table_a2b this_ch with
        | None => a2b cs' quad_pos leftchar pads out
        | Some v =>
            match quad_pos with
            | 0%nat => a2b cs' 1%nat v 0%nat out
            | 1%nat =>
                a2b cs' 2%nat (Z.land v 15) 0%nat
                    (out ++ [Z.lor (Z.shiftl leftchar 2) (Z.shiftr v 4)])
            | 2%nat =>
                a2b cs' 3%nat (Z.land v 3) 0%nat
                    (out ++ [Z.lor (Z.shiftl leftchar 4) (Z.shiftr v 2)])
            | _ =>
                a2b cs' 0%nat 0 0%nat (out ++ [Z.lor (Z.shiftl leftchar 6) v])
            end
        end
  end.

(** The first two characters of a group carry the first byte: the check
    behind the round trip, run over all byte values. *)
Definition split_ab (a b : Z) : bool :=
  let s0 := Z.shiftr a 2 in
  let s1 := Z.lor (Z.shiftl (Z.land a 3) 4) (Z.shiftr b 4) in
  (0 <=? s0) && (s0 <? 64) && (0 <=? s1) && (s1 <? 64)
  && (Z.lor (Z.shiftl s0 2) (Z.shiftr s1 4) =? a)
  && (Z.land s1 15 =? Z.shiftr b 4).

(** The last two characters carry the rest of the second byte and the
    third byte. *)
Definition split_bc (b c : Z) : bool :=
  let s2 := Z.lor (Z.shiftl (Z.land b 15) 2) (Z.shiftr c 6) in
  let s3 := Z.land c 63 in
  (0 <=? s2) && (s2 <? 64) && (0 <=? s3) && (s3 <? 64)
  && (Z.lor (Z.shiftl (Z.shiftr b 4) 4) (Z.shiftr s2 2) =? b)
  && (Z.lor (Z.shiftl (Z.land s2 3) 6) s3 =? c).

(** [base64.b64encode(s)] *)
Definition b64encode (s : bytes) : bytes :=
  List.map byte_of_Z (b2a (List.map Z_of_byte s)).

(** [base64.b64decode(s)] for a [str] argument: the string is first
    encoded as ASCII, which raises [ValueError] on any other character. *)
Definition b64decode (s : string) : result bytes :=
  let cs := List.map code_point (list_ascii_of_string s) in
  if forallb (fun c => c <? 128) cs then
    out ← a2b cs 0%nat 0 0%nat [];
    Ok (List.map byte_of_Z out)
  else Raise ValueError.

End Base64.

(** ** The ecdsa package, as far as the wallet helpers use it *)

Class Ecdsa : Type := {
  SigningKey : Type;
  VerifyingKey : Type;
  (** [SigningKey.generate(curve=SECP256k1)], from the entropy it draws. *)
  sk_generate : bytes -> SigningKey;
  (** [sk.verifying_key] *)
  sk_verifying_key : SigningKey -> VerifyingKey;
  (** [sk.sign(data)], from the entropy it draws. *)
  sk_sign : SigningKey -> bytes -> bytes -> bytes;
  (** [vk.verify(signature, data)]: [True], or an exception. *)
  vk_verify : VerifyingKey -> bytes -> bytes -> result bool
}.


(** ** The wallet helpers of app3.py *)

Section Wallet.
Context {E : Ecdsa}.


Definition sign_art (sk : SigningKey) (entropy : bytes) (art_hash : string) : string :=
  let signature := sk_sign sk entropy (encode art_hash) in
  decode_ascii (Base64.b64encode signature).

Definition verify_signature (vk : VerifyingKey) (art_hash : string) (signature : string)
  : result bool :=
  try_except
    (sig ← Base64.b64decode signature;
     vk_verify vk sig (encode art_hash))
    false.

End Wallet.

(** A stand-in for the package, small enough to run: keys are single bytes,
    a signature is the key followed by the data. *)
Definition toy_ecdsa : Ecdsa := {|
  SigningKey := byte;
  VerifyingKey := byte;
  sk_generate := fun entropy => match entropy with b :: _ => b | [] => x00 end;
  sk_verifying_key := fun sk => sk;
  sk_sign := fun sk _ data => sk :: data;
  vk_verify := fun vk sig data =>
    if decide (sig = vk :: data :> list byte) then Ok true else Raise BadSignatureError
|}.

(** ** Utility functions (both files) *)

(** [get_image_hash(image)]; [image.read()] returns [img_bytes]. *)
Definition get_image_hash (image : bytes) : string * bytes :=
  let img_bytes := image in
  (SHA256.hexdigest img_bytes, img_bytes).

(** [create_thumbnail(image_bytes)].  What the imaging library does with
    the bytes ([Image.open], [thumbnail((100, 100))], [save] as PNG) is the
    parameter [png_thumbnail]: the bytes left in the buffer, or the
    exception raised. *)
Definition create_thumbnail (png_thumbnail : bytes -> result bytes) (image_bytes : bytes)
  : result string :=
  buffered ← png_thumbnail image_bytes;
  Ok (decode_ascii (Base64.b64encode buffered)).

(** The characters of the base64 alphabet, and the pad. *)
Definition is_base64_char (c : ascii) : bool :=
  let n := code_point c in
  match Base64.table_a2b n with
  | Some _ => true
  | None => n =? Base64.pad_char
  end.

Definition is_hex_char (c : ascii) : bool :=
  let n := code_point c in
  ((48 <=? n) && (n <=? 57)) || ((97 <=? n) && (n <=? 102)).

Fixpoint string_forall (p : ascii -> bool) (s : string) : bool :=
  match s with
  | EmptyString => true
  | String c s' => p c && string_forall p s'
  end.

(** ** Dictionaries and sets keyed by values *)

(** Lists and dictionaries cannot be keys. *)
Definition hashable (v : json) : bool :=
  match v with
  | JList _ | JObj _ => false
  | _ => true
  end.

(** A dictionary from values to integers, in insertion order. *)
Definition counter : Type := list (json * Z).

(** [d.get(k, default)] *)
Fixpoint counter_get (k : json) (d : counter) (default : Z) : Z :=
  match d with
  | [] => default
  | (k', n) :: d' => if py_eq k' k then n else counter_get k d' default
  end.

(** [d[k] = n]: an equal key keeps its place and its first spelling. *)
Fixpoint counter_set (k : json) (n : Z) (d : counter) : counter :=
  match d with
  | [] => [(k, n)]
  | (k', m) :: d' => if py_eq k' k then (k', n) :: d' else (k', m) :: counter_set k n d'
  end.

(** [s.add(k)] on a set kept as the list of its elements. *)
Fixpoint set_add (k : json) (s : list json) : list json :=
  match s with
  | [] => [k]
  | k' :: s' => if py_eq k' k then s else k' :: set_add k s'
  end.

(** [sorted(items, key=lambda x: x[1], reverse=True)]: larger counts first,
    equal counts in their original order. *)
Fixpoint insert_desc (x : json * Z) (l : counter) : counter :=
  match l with
  | [] => [x]
  | y :: l' => if snd y <? snd x then x :: l else y :: insert_desc x l'
  end.

Definition sorted_desc (items : counter) : counter :=
  fold_left (fun acc x => insert_desc x acc) items [].

(** The sum of the counts. *)
Definition count_sum (d : counter) : Z :=
  fold_right (fun kv acc => snd kv + acc) 0 d.

(** Larger counts first. *)
Definition count_ge (x y : json * Z) : Prop := snd y <= snd x.

(** The rows with a given count, in the order they have. *)
Definition rows_with (c : Z) (d : counter) : counter :=
  List.filter (fun kv => snd kv =? c) d.

(** ** The tabs of app2.py *)

Module App2Tabs.
Import App2.

(** Truth value of a [str]. *)
Definition truthy (s : string) : bool := negb (String.eqb s "").

(** The "Mint NFT" tab, from the state of the form to the chain, the
    storage file and the block the success message names ([None] when
    nothing is minted). *)
Definition mint_tab (png_thumbnail : bytes -> result bytes)
    (blockchain : Blockchain) (file : option json) (now : string)
    (submitted : bool) (uploaded_file : option bytes)
    (owner title description category : string)
  : result (Blockchain * option json * option Block) :=
  match submitted, uploaded_file with
  | true, Some image =>
      if truthy owner then
        let '(art_hash, img_bytes) := get_image_hash image in
        thumbnail ← create_thumbnail png_thumbnail img_bytes;
        let metadata :=
          JObj [ ("title", JStr title); ("description", JStr description);
                 ("category", JStr category); ("thumbnail", JStr thumbnail) ] in
        '(new_block, blockchain) ← add_block blockchain now (JStr art_hash) (JStr owner) metadata;
        let file := save blockchain in
        Ok (blockchain, file, Some new_block)
      else Ok (blockchain, file, None)
  | _, _ => Ok (blockchain, file, None)
  end.

(** [[block for block in blockchain.chain if block.art_hash == art_hash]] *)
Definition matches (blockchain : Blockchain) (art_hash : string) : list Block :=
  List.filter (fun block => py_eq (App2.art_hash block) (JStr art_hash)) (chain blockchain).

(** The values one line of the "Verify" tab shows for a match. *)
Definition match_line (block : Block) : result (json * json * json) :=
  title ← get_method (metadata block) "title" JNull;
  Ok (index block, owner block, title).

Fixpoint match_lines (blocks : list Block) : result (list (json * json * json)) :=
  match blocks with
  | [] => Ok []
  | block :: rest =>
      line ← match_line block;
      lines ← match_lines rest;
      Ok (line :: lines)
  end.

(** The "Verify NFT" tab: nothing without a file, else the lines of the
    matches ([Some]), or the error message ([None]). *)
Definition verify_tab (blockchain : Blockchain) (file_to_verify : option bytes)
  : result (option (option (list (json * json * json)))) :=
  match file_to_verify with
  | Some image =>
      let '(art_hash, _) := get_image_hash image in
      match matches blockchain art_hash with
      | [] => Ok (Some None)
      | ms => lines ← match_lines ms; Ok (Some (Some lines))
      end
  | None => Ok None
  end.

(** The "Statistics" tab. *)
Definition total_nfts (blockchain : Blockchain) : Z :=
  Z.of_nat (length (chain blockchain)) - 1.

Fixpoint unique_owners_loop (blocks : list Block) (acc : list json) : result (list json) :=
  match blocks with
  | [] => Ok acc
  | block :: rest =>
      if hashable (owner block) then unique_owners_loop rest (set_add (owner block) acc)
      else Raise TypeError
  end.

Definition unique_owners (blockchain : Blockchain) : result (list json) :=
  unique_owners_loop (skipn 1 (chain blockchain)) [].

Fixpoint owner_counts_loop (blocks : list Block) (owner_counts : counter) : result counter :=
  match blocks with
  | [] => Ok owner_counts
  | block :: rest =>
      if hashable (owner block) then
        owner_counts_loop rest
          (counter_set (owner block) (counter_get (owner block) owner_counts 0 + 1)
                       owner_counts)
      else Raise TypeError
  end.

Definition owner_counts (blockchain : Blockchain) : result counter :=
  owner_counts_loop (skipn 1 (chain blockchain)) [].

(** Total, number of unique owners, rows of the leaderboard. *)
Definition stats_tab (blockchain : Blockchain) : result (Z * nat * counter) :=
  let total := total_nfts blockchain in
  unique ← unique_owners blockchain;
  counts ← owner_counts blockchain;
  let leaderboard := sorted_desc counts in
  Ok (total, length unique, leaderboard).

(** The chains the application itself can hold: the one the constructor
    makes, and those the "Mint NFT" tab leaves. *)
Inductive minted (png_thumbnail : bytes -> result bytes) : Blockchain -> Prop :=
| minted_init (now : string) : minted png_thumbnail (Blockchain_init now)
| minted_mint (blockchain : Blockchain) (file : option json) (now : string)
    (submitted : bool) (uploaded_file : option bytes)
    (owner title description category : string)
    (blockchain' : Blockchain) (file' : option json) (new_block : option Block) :
    minted png_thumbnail blockchain ->
    mint_tab png_thumbnail blockchain file now submitted uploaded_file
             owner title description category
      = Ok (blockchain', file', new_block) ->
    minted png_thumbnail blockchain'.

End App2Tabs.

(** ** Sample data: the example scenario *)

Definition sample_t0 : string := "2024-01-01 00:00:00.000000".
Definition sample_t1 : string := "2024-01-01 00:00:01.000000".
Definition sample_title : json := JObj [("title", JStr "Sunset")].

(** app3.py: a fresh chain, then one append for alice. *)
Definition sample_fresh3 : App3.Blockchain := App3.Blockchain_init sample_t0.

Definition sample_genesis3 : App3.Block :=
  App3.Block_init (JInt 0) (JStr sample_t0) (JStr "0") (JStr "Genesis") JNull JNull
                  (JObj [("title", JStr "Genesis Block")]) (JStr "0").

Definition sample_alice3 : App3.Block :=
  App3.Block_init (JInt 1) (JStr sample_t1) (JStr "abc123") (JStr "alice") JNull JNull
                  sample_title (App3.hash sample_genesis3).

Definition sample_chain3 : App3.Blockchain :=
  App3.mkBlockchain [sample_genesis3; sample_alice3].


(** A persisted record without its [hash] key. *)
Definition sample_no_hash : dict :=
  [ ("index", JInt 0); ("timestamp", JStr sample_t0); ("art_hash", JStr "0");
    ("owner_name", JStr "Genesis"); ("owner", JStr "Genesis");
    ("metadata", JObj [("title", JStr "Genesis Block")]); ("previous_hash", JStr "0") ].

(** app2.py: a fresh chain, then one append for alice. *)
Definition sample_fresh2 : App2.Blockchain := App2.Blockchain_init sample_t0.

Definition sample_genesis2 : App2.Block :=
  App2.Block_init (JInt 0) (JStr sample_t0) (JStr "0") (JStr "Genesis")
                  (JObj [("title", JStr "Genesis Block")]) (JStr "0").

Definition sample_alice2 : App2.Block :=
  App2.Block_init (JInt 1) (JStr sample_t1) (JStr "abc123") (JStr "alice")
                  sample_title (App2.hash sample_genesis2).

Definition sample_chain2 : App2.Blockchain :=
  App2.mkBlockchain [sample_genesis2; sample_alice2].

(** A record persisted before signatures existed: no [owner_pubkey], no
    [signature], no [nonce]; and the same record with a key [load] does not
    know. *)
Definition sample_legacy : dict :=
  [ ("index", JInt 1); ("timestamp", JStr sample_t1); ("art_hash", JStr "abc123");
    ("owner_name", JStr "alice"); ("metadata", sample_title);
    ("previous_hash", JStr "0"); ("hash", JStr "1234") ].

(** A mint in app2.py: an uploaded file of six bytes, an imaging library
    that hands the bytes back as they are. *)
Definition sample_png (image_bytes : bytes) : result bytes := Ok image_bytes.
Definition sample_image : bytes := encode "pixels".

Definition sample_minted_block2 : App2.Block :=
  App2.Block_init (JInt 1) (JStr sample_t1) (JStr (SHA256.hexdigest sample_image))
    (JStr "alice")
    (JObj [ ("title", JStr "Sunset"); ("description", JStr ""); ("category", JStr "Art");
            ("thumbnail", JStr (decode_ascii (Base64.b64encode sample_image))) ])
    (App2.hash sample_genesis2).

Definition sample_minted_chain2 : App2.Blockchain :=
  App2.mkBlockchain [sample_genesis2; sample_minted_block2].

(** The library functions are evaluated on closed inputs only. *)
Arguments SHA256.hexdigest : simpl never.
Arguments dumps : simpl never.

(** * Properties *)

(** ** Test vectors of the embedded library functions *)

Example sha256_constants :
  length SHA256.K = 64%nat /\ nth 0 SHA256.K 0 = 0x428a2f98 /\ nth 63 SHA256.K 0 = 0xc67178f2
  /\ length SHA256.H0 = 8%nat /\ nth 0 SHA256.H0 0 = 0x6a09e667
  /\ nth 7 SHA256.H0 0 = 0x5be0cd19.
Proof. repeat split. Qed.

Example sha256_empty :
  SHA256.hexdigest (encode "")
  = "e3b0c44298fc1c149afbf4c8996fb92427ae41e4649b934ca495991b7852b855".
Proof. vm_compute. reflexivity. Qed.

Example sha256_abc :
  SHA256.hexdigest (encode "abc")
  = "ba7816bf8f01cfea414140de5dae2223b00361a396177a9cb410ff61f20015ad".
Proof. vm_compute. reflexivity. Qed.

Example sha256_two_blocks :
  SHA256.hexdigest (encode "abcdbcdecdefdefgefghfghighijhijkijkljklmklmnlmnomnopnopq")
  = "248d6a61d20638b8e5c026930c3e6039a33ce45964ff2167f6ecedd419db06c1".
Proof. vm_compute. reflexivity. Qed.

Example dumps_sample :
  dumps (JObj [("b", JList [JInt 1; JInt (-20); JNull; JBool true;
                            JStr (String "a" (String dquote (String backslash
                                   (String (chr 10) (String (chr 127) (String (chr 233)
                                   (String (chr 1) EmptyString)))))))]);
               ("a", JObj []); ("c", JList [])])
  = string_of_list_ascii (List.map chr
      [ 123; 34; 97; 34; 58; 32; 123; 125; 44; 32; 34; 98; 34; 58; 32; 91; 49;
        44; 32; 45; 50; 48; 44; 32; 110; 117; 108; 108; 44; 32; 116; 114; 117;
        101; 44; 32; 34; 97; 92; 34; 92; 92; 92; 110; 92; 117; 48; 48; 55;
        102; 92; 117; 48; 48; 101; 57; 92; 117; 48; 48; 48; 49; 34; 93; 44;
        32; 34; 99; 34; 58; 32; 91; 93; 125 ]).
Proof. vm_compute. reflexivity. Qed.

(** ** The exception monad *)

Lemma bind_Ok {A B : Type} (a : A) (k : A -> result B) : (x ← Ok a; k x) = k a.
Proof. reflexivity. Qed.

Lemma bind_Raise {A B : Type} (e : exn) (k : A -> result B) :
  (x ← Raise e; k x) = Raise e.
Proof. reflexivity. Qed.

Lemma bind_Ok_inv {A B : Type} (m : result A) (k : A -> result B) (b : B) :
  (x ← m; k x) = Ok b -> exists a, m = Ok a /\ k a = Ok b.
Proof. destruct m as [a|e]; [eauto | discriminate]. Qed.

Lemma getitem_Some {A : Type} (l : list A) (i : nat) (x : A) :
  l !! i = Some x -> getitem l i = Ok x.
Proof. unfold getitem. intros ->. reflexivity. Qed.

Lemma getitem_last_snoc {A : Type} (l : list A) (x : A) :
  getitem_last (l ++ [x]) = Ok x.
Proof. unfold getitem_last. rewrite last_snoc. reflexivity. Qed.

(** ** Genesis *)

(** C3. A chain made by the constructor holds exactly one record, with index
    0, previous hash "0", content hash "0" and owner label "Genesis", and
    [is_chain_valid] returns [True] on it. *)
Theorem genesis_invariant (now : string) :
  exists g : App3.Block,
    App3.chain (App3.Blockchain_init now) = [g]
    /\ App3.index g = JInt 0
    /\ App3.previous_hash g = JStr "0"
    /\ App3.art_hash g = JStr "0"
    /\ App3.owner_name g = JStr "Genesis"
    /\ App3.is_chain_valid (App3.Blockchain_init now) = Ok true.
Proof.
  eexists. split; [reflexivity|]. repeat split.
Qed.

(** ** Python equality against a string *)

Lemma JStr_inj (s t : string) : JStr s = JStr t -> s = t.
Proof. intros [= ->]. reflexivity. Qed.

Lemma py_eq_JStr_r (v : json) (s : string) : py_eq v (JStr s) = true <-> v = JStr s.
Proof.
  destruct v; simpl; try (split; [discriminate | discriminate]).
  rewrite String.eqb_eq. split; congruence.
Qed.

Lemma py_ne_JStr_same (s : string) : py_ne (JStr s) (JStr s) = false.
Proof. unfold py_ne. simpl. rewrite String.eqb_refl. reflexivity. Qed.

Lemma py_ne_JStr_diff (s t : string) : s <> t -> py_ne (JStr s) (JStr t) = true.
Proof.
  intros Hne. unfold py_ne. simpl.
  destruct (String.eqb_spec s t); [contradiction | reflexivity].
Qed.

(** ** The validity scan of app3.py *)

Section App3Validity.
Import App3.

(** On indices inside the chain the loop never raises, and it computes
    the conjunction of the link checks. *)
Lemma is_chain_valid_loop_spec (l : list Block) (range : list nat) :
  Forall (fun i => (i < length l)%nat) range ->
  is_chain_valid_loop l range = Ok (forallb (link_ok l) range).
Proof.
  induction range as [|i range IH]; intros Hin; [reflexivity|].
  inversion Hin as [|? ? Hi Hrest]; subst.
  destruct (lookup_lt_is_Some_2 l i Hi) as [curr Hcurr].
  destruct (lookup_lt_is_Some_2 l (i - 1)%nat ltac:(lia)) as [prev Hprev].
  cbn [is_chain_valid_loop forallb]. unfold link_ok at 1.
  rewrite (getitem_Some _ _ _ Hprev), (getitem_Some _ _ _ Hcurr), Hprev, Hcurr.
  rewrite !bind_Ok. unfold py_ne.
  destruct (py_eq (hash curr) (JStr (compute_hash curr))); [|reflexivity].
  destruct (py_eq (previous_hash curr) (hash prev)); [|reflexivity].
  cbn. apply IH, Hrest.
Qed.

Lemma range_in_chain (n : nat) : Forall (fun i => (i < n)%nat) (seq 1 (n - 1)).
Proof. apply Forall_forall. intros i Hi. apply elem_of_seq in Hi. lia. Qed.

Lemma is_chain_valid_spec (self : Blockchain) :
  is_chain_valid self
  = Ok (forallb (link_ok (chain self)) (seq 1 (length (chain self) - 1))).
Proof. apply is_chain_valid_loop_spec, range_in_chain. Qed.


End App3Validity.

(** ** Hashing at construction, app3.py *)

Section App3Hashing.
Import App3.

(** [compute_hash] on a block straight out of [__init__] returns the hash
    [__init__] stored: the [pop] removes exactly the attribute that was
    missing when the hash was first computed. *)
Lemma compute_hash_Block_init
    (index timestamp art_hash owner_name owner_pubkey signature metadata previous_hash : json) :
  hash_consistent
    (Block_init index timestamp art_hash owner_name owner_pubkey signature metadata
                previous_hash).
Proof. reflexivity. Qed.


Lemma add_block_inv (self self' : Blockchain) (now : string)
    (art_hash owner_name owner_pubkey signature metadata : json) (new_block : Block) :
  add_block self now art_hash owner_name owner_pubkey signature metadata
    = Ok (new_block, self') ->
  exists old_last,
    last (chain self) = Some old_last
    /\ new_block = Block_init (JInt (Z.of_nat (length (chain self)))) (JStr now) art_hash
                     owner_name owner_pubkey signature metadata (hash old_last)
    /\ chain self' = chain self ++ [new_block].
Proof.
  unfold add_block, getitem_last. destruct (last (chain self)) as [old_last|];
    [|discriminate].
  rewrite bind_Ok. intros [= <- <-]. eauto.
Qed.

Lemma created_nonempty (self : Blockchain) : created self -> chain self <> [].
Proof.
  induction 1 as [now|self now a o pk sg md nb self' _ _ Hadd]; [discriminate|].
  apply add_block_inv in Hadd as (old_last & _ & _ & ->).
  intros Heq. apply app_eq_nil in Heq as [_ Heq]. discriminate.
Qed.

(** Every record of a chain grown by [add_block] alone still carries the
    hash of its other attributes. *)
Lemma created_hash_consistent (self : Blockchain) :
  created self -> Forall hash_consistent (chain self).
Proof.
  induction 1 as [now|self now a o pk sg md nb self' _ IH Hadd].
  - repeat constructor.
  - apply add_block_inv in Hadd as (old_last & _ & -> & ->).
    apply Forall_app. split; [exact IH|]. repeat constructor.
Qed.

Lemma created_index (self : Blockchain) :
  created self ->
  forall (i : nat) (b : Block), chain self !! i = Some b -> index b = JInt (Z.of_nat i).
Proof.
  induction 1 as [now|self now a o pk sg md nb self' _ IH Hadd]; intros i b Hb.
  - destruct i as [|i]; [|destruct i; discriminate].
    injection Hb as <-. reflexivity.
  - apply add_block_inv in Hadd as (old_last & _ & -> & Hchain).
    rewrite Hchain in Hb. apply lookup_app_Some in Hb as [Hb|[Hlen Hb]].
    + eauto.
    + destruct (i - length (chain self))%nat as [|k] eqn:Hk;
        [|destruct k; discriminate].
      injection Hb as <-. cbn. do 2 f_equal. lia.
Qed.

Lemma created_links (self : Blockchain) :
  created self ->
  forall i : nat, (0 < i < length (chain self))%nat -> link_ok (chain self) i = true.
Proof.
  induction 1 as [now|self now a o pk sg md nb self' Hcr IH Hadd]; intros i Hi.
  - cbn in Hi. lia.
  - pose proof (created_hash_consistent _ Hcr) as Hcons.
    apply add_block_inv in Hadd as (old_last & Hlast & -> & Hchain).
    rewrite Hchain in Hi |- *. rewrite length_app in Hi. cbn in Hi.
    destruct (decide (i < length (chain self))%nat) as [Hlt|Hge].
    + specialize (IH i ltac:(lia)). unfold link_ok in IH |- *.
      rewrite !lookup_app_l by lia. exact IH.
    + assert (i = length (chain self)) as -> by lia.
      unfold link_ok. rewrite last_lookup in Hlast.
      rewrite lookup_app_l by lia.
      replace (length (chain self) - 1)%nat with (pred (length (chain self))) by lia.
      rewrite Hlast, list_lookup_middle by reflexivity.
      rewrite Forall_forall in Hcons.
      assert (hash_consistent old_last) as Hold.
      { apply Hcons. eapply list_elem_of_lookup_2, Hlast. }
      cbn [previous_hash hash Block_init]. rewrite Hold.
      apply andb_true_iff. split; apply py_eq_JStr_r; reflexivity.
Qed.

(** [is_chain_valid] accepts every chain grown by [add_block] alone. *)
Lemma created_valid (self : Blockchain) : created self -> is_chain_valid self = Ok true.
Proof.
  intros Hcr. rewrite is_chain_valid_spec. f_equal.
  apply forallb_forall. intros i Hi. apply in_seq in Hi.
  apply created_links; [exact Hcr | lia].
Qed.

End App3Hashing.

(** ** Append *)


(** ** Storage *)

(** C8. With no storage file [load] raises nothing and returns what the
    constructor returns: a chain holding the genesis record only.  Both
    applications. *)
Theorem load_absent (now : string) :
  (App3.load None now = Ok (App3.Blockchain_init now)
   /\ exists g : App3.Block,
        App3.chain (App3.Blockchain_init now) = [g]
        /\ App3.index g = JInt 0 /\ App3.owner_name g = JStr "Genesis"
        /\ App3.art_hash g = JStr "0" /\ App3.previous_hash g = JStr "0")
  /\
  (App2.load None now = Ok (App2.Blockchain_init now)
   /\ exists g : App2.Block,
        App2.chain (App2.Blockchain_init now) = [g]
        /\ App2.index g = JInt 0 /\ App2.owner g = JStr "Genesis"
        /\ App2.art_hash g = JStr "0" /\ App2.previous_hash g = JStr "0").
Proof.
  split; (split; [reflexivity|]); eexists; (split; [reflexivity|]); repeat split.
Qed.

(** C10. A storage file holding an empty sequence loads as a chain with no
    record at all, not even a genesis record, and [add_block] on that chain
    raises [IndexError] instead of returning a record.  Both applications. *)
Theorem load_empty_then_add_block_fails
    (now now' : string) (art_hash owner_name owner_pubkey signature metadata : json) :
  (App3.load (Some (JList [])) now = Ok (App3.mkBlockchain [])
   /\ (self ← App3.load (Some (JList [])) now;
       App3.add_block self now' art_hash owner_name owner_pubkey signature metadata)
      = Raise IndexError)
  /\
  (App2.load (Some (JList [])) now = Ok (App2.mkBlockchain [])
   /\ (self ← App2.load (Some (JList [])) now;
       App2.add_block self now' art_hash owner_name metadata)
      = Raise IndexError).
Proof. repeat split. Qed.

Lemma get_method_obj (d : dict) (key : string) (default : json) :
  exists v, get_method (JObj d) key default = Ok v.
Proof. unfold get_method. destruct (dict_get key d); eauto. Qed.

(** One step through the reads of [load_block]: a subscript either raises
    or yields a value, a [get] always yields one. *)
Ltac step_load :=
  match goal with
  | |- exists e, mbind _ (subscript ?v ?key) = Raise e =>
      destruct (subscript v key) eqn:?; rewrite ?bind_Ok, ?bind_Raise; [|eauto]
  | |- exists e, mbind _ (get_method (JObj ?d) ?key ?dflt) = Raise e =>
      let v := fresh "v" in
      destruct (get_method_obj d key dflt) as [v ->]; rewrite bind_Ok
  | |- exists e, (let _ := _ in _) = Raise e => cbv zeta
  end.

(** *** Round trip, app3.py *)

Section App3Storage.
Import App3.



(** The loop of [load] returns one block per item, in order, or raises. *)
Lemma load_loop_Ok (items : list json) (acc l : list Block) :
  load_loop items acc = Ok l ->
  exists bs, l = acc ++ bs /\ Forall2 (fun item b => load_block item = Ok b) items bs.
Proof.
  revert acc. induction items as [|item items IH]; intros acc; cbn [load_loop].
  - intros [= <-]. exists []. rewrite app_nil_r. split; [reflexivity | constructor].
  - intros H. apply bind_Ok_inv in H as (b & Hb & H).
    apply IH in H as (bs & -> & Hbs). exists (b :: bs).
    rewrite <- app_assoc. split; [reflexivity | constructor; assumption].
Qed.

Lemma load_loop_Raise (items : list json) (acc : list Block) (item : json) (e : exn) :
  In item items -> load_block item = Raise e ->
  exists e', load_loop items acc = Raise e'.
Proof.
  revert acc. induction items as [|x items IH]; intros acc Hin He; [destruct Hin|].
  cbn [load_loop]. destruct (load_block x) as [b|e0] eqn:Hx; [|eauto].
  rewrite bind_Ok. destruct Hin as [->|Hin]; [congruence | eauto].
Qed.

Lemma load_block_missing (fields : dict) (k : string) :
  In k required_keys -> dict_get k fields = None ->
  exists e, load_block (JObj fields) = Raise e.
Proof.
  intros Hk Hnone. unfold load_block.
  repeat step_load. exfalso.
  cbn in Hk. unfold subscript in *.
  repeat match goal with
  | H : match dict_get ?key fields with _ => _ end = Ok _ |- _ =>
      destruct (dict_get key fields) eqn:?; [clear H | discriminate H]
  end.
  intuition (subst; congruence).
Qed.

End App3Storage.


(** *** Loading, app2.py *)

Section App2Storage.
Import App2.

Lemma load_loop_Ok_2 (items : list json) (acc l : list Block) :
  load_loop items acc = Ok l ->
  exists bs, l = acc ++ bs /\ Forall2 (fun item b => load_block item = Ok b) items bs.
Proof.
  revert acc. induction items as [|item items IH]; intros acc; cbn [load_loop].
  - intros [= <-]. exists []. rewrite app_nil_r. split; [reflexivity | constructor].
  - intros H. apply bind_Ok_inv in H as (b & Hb & H).
    apply IH in H as (bs & -> & Hbs). exists (b :: bs).
    rewrite <- app_assoc. split; [reflexivity | constructor; assumption].
Qed.

Lemma load_loop_Raise_2 (items : list json) (acc : list Block) (item : json) (e : exn) :
  In item items -> load_block item = Raise e ->
  exists e', load_loop items acc = Raise e'.
Proof.
  revert acc. induction items as [|x items IH]; intros acc Hin He; [destruct Hin|].
  cbn [load_loop]. destruct (load_block x) as [b|e0] eqn:Hx; [|eauto].
  rewrite bind_Ok. destruct Hin as [->|Hin]; [congruence | eauto].
Qed.

Lemma load_block_missing_2 (fields : dict) (k : string) :
  In k required_keys -> dict_get k fields = None ->
  exists e, load_block (JObj fields) = Raise e.
Proof.
  intros Hk Hnone. unfold load_block.
  repeat step_load. exfalso.
  cbn in Hk. unfold subscript in *.
  repeat match goal with
  | H : match dict_get ?key fields with _ => _ end = Ok _ |- _ =>
      destruct (dict_get key fields) eqn:?; [clear H | discriminate H]
  end.
  intuition (subst; congruence).
Qed.

End App2Storage.

(** C9. When one persisted record object lacks a key that [load] reads with
    a subscript, [load] raises: no chain is returned.  And whenever [load]
    does return a chain, that chain has one record for every persisted item,
    in order, so a chain made of a subset of the items is never returned.
    Both applications. *)
Theorem load_missing_field_fails :
  (forall (items : list json) (fields : dict) (k : string) (now : string),
      In (JObj fields) items -> In k App3.required_keys -> dict_get k fields = None ->
      exists e, App3.load (Some (JList items)) now = Raise e)
  /\
  (forall (items : list json) (now : string) (self : App3.Blockchain),
      App3.load (Some (JList items)) now = Ok self ->
      Forall2 (fun item b => App3.load_block item = Ok b) items (App3.chain self))
  /\
  (forall (items : list json) (fields : dict) (k : string) (now : string),
      In (JObj fields) items -> In k App2.required_keys -> dict_get k fields = None ->
      exists e, App2.load (Some (JList items)) now = Raise e)
  /\
  (forall (items : list json) (now : string) (self : App2.Blockchain),
      App2.load (Some (JList items)) now = Ok self ->
      Forall2 (fun item b => App2.load_block item = Ok b) items (App2.chain self)).
Proof.
  repeat apply conj.
  - intros items fields k now Hin Hk Hnone.
    destruct (load_block_missing fields k Hk Hnone) as [e He].
    destruct (load_loop_Raise items [] _ e Hin He) as [e' He'].
    exists e'. unfold App3.load, iterate. cbn [App3.chain].
    rewrite bind_Ok, He'. reflexivity.
  - intros items now self. unfold App3.load, iterate. cbn [App3.chain].
    rewrite bind_Ok. intros H. apply bind_Ok_inv in H as (l & Hl & [= <-]).
    apply load_loop_Ok in Hl as (bs & -> & Hbs). exact Hbs.
  - intros items fields k now Hin Hk Hnone.
    destruct (load_block_missing_2 fields k Hk Hnone) as [e He].
    destruct (load_loop_Raise_2 items [] _ e Hin He) as [e' He'].
    exists e'. unfold App2.load, iterate. cbn [App2.chain].
    rewrite bind_Ok, He'. reflexivity.
  - intros items now self. unfold App2.load, iterate. cbn [App2.chain].
    rewrite bind_Ok. intros H. apply bind_Ok_inv in H as (l & Hl & [= <-]).
    apply load_loop_Ok_2 in Hl as (bs & -> & Hbs). exact Hbs.
Qed.

(** ** Tampering, app3.py *)

Section App3Tamper.
Import App3.



End App3Tamper.

(** ** base64: decoding undoes encoding *)

Lemma Z_range_forallb (n : nat) (f : Z -> bool) :
  forallb f (List.map Z.of_nat (seq 0 n)) = true ->
  forall z, 0 <= z < Z.of_nat n -> f z = true.
Proof.
  intros Hall z Hz. rewrite forallb_forall in Hall. apply Hall.
  apply in_map_iff. exists (Z.to_nat z). split; [lia|]. apply in_seq. lia.
Qed.

Lemma byte_of_Z_of_byte (b : byte) : byte_of_Z (Z_of_byte b) = b.
Proof. destruct b; reflexivity. Qed.

Lemma Z_of_byte_range (b : byte) : 0 <= Z_of_byte b < 256.
Proof.
  unfold Z_of_byte. pose proof (Byte.to_N_bounded b) as H. lia.
Qed.

Lemma code_point_of_Z (z : Z) :
  0 <= z < 256 -> code_point (ascii_of_byte (byte_of_Z z)) = z.
Proof.
  intros Hz. apply Z.eqb_eq.
  apply (Z_range_forallb 256 (fun z => code_point (ascii_of_byte (byte_of_Z z)) =? z));
    [vm_compute; reflexivity | exact Hz].
Qed.

Section Base64Facts.
Import Base64.

Lemma table_round_trip (n : Z) :
  0 <= n < 64 ->
  table_a2b (table_b2a n) = Some n /\ table_b2a n <> pad_char /\ 0 <= table_b2a n < 128.
Proof.
  intros Hn. unfold table_a2b, table_b2a, pad_char.
  repeat match goal with
  | |- context [Z.ltb ?x ?y] => destruct (Z.ltb_spec x y)
  | |- context [Z.leb ?x ?y] => destruct (Z.leb_spec x y)
  | |- context [Z.eqb ?x ?y] => destruct (Z.eqb_spec x y)
  | _ => progress cbn [andb]
  end; repeat split; try lia; f_equal; lia.
Qed.

Lemma split_ab_ok (a b : Z) : 0 <= a < 256 -> 0 <= b < 256 -> split_ab a b = true.
Proof.
  intros Ha Hb.
  pose proof (Z_range_forallb 256
                (fun a => forallb (split_ab a) (List.map Z.of_nat (seq 0 256)))
                ltac:(vm_compute; reflexivity) a Ha) as Hall.
  exact (Z_range_forallb 256 _ Hall b Hb).
Qed.

Lemma split_bc_ok (b c : Z) : 0 <= b < 256 -> 0 <= c < 256 -> split_bc b c = true.
Proof.
  intros Hb Hc.
  pose proof (Z_range_forallb 256
                (fun b => forallb (split_bc b) (List.map Z.of_nat (seq 0 256)))
                ltac:(vm_compute; reflexivity) b Hb) as Hall.
  exact (Z_range_forallb 256 _ Hall c Hc).
Qed.

Lemma split_ab_facts (a b : Z) :
  0 <= a < 256 -> 0 <= b < 256 ->
  let s0 := Z.shiftr a 2 in
  let s1 := Z.lor (Z.shiftl (Z.land a 3) 4) (Z.shiftr b 4) in
  0 <= s0 < 64 /\ 0 <= s1 < 64
  /\ Z.lor (Z.shiftl s0 2) (Z.shiftr s1 4) = a
  /\ Z.land s1 15 = Z.shiftr b 4.
Proof.
  intros Ha Hb. pose proof (split_ab_ok a b Ha Hb) as H. unfold split_ab in H.
  cbv zeta in *. rewrite !andb_true_iff in H.
  rewrite !Z.leb_le, !Z.ltb_lt, !Z.eqb_eq in H. intuition lia.
Qed.

Lemma split_bc_facts (b c : Z) :
  0 <= b < 256 -> 0 <= c < 256 ->
  let s2 := Z.lor (Z.shiftl (Z.land b 15) 2) (Z.shiftr c 6) in
  let s3 := Z.land c 63 in
  0 <= s2 < 64 /\ 0 <= s3 < 64
  /\ Z.lor (Z.shiftl (Z.shiftr b 4) 4) (Z.shiftr s2 2) = b
  /\ Z.lor (Z.shiftl (Z.land s2 3) 6) s3 = c.
Proof.
  intros Hb Hc. pose proof (split_bc_ok b c Hb Hc) as H. unfold split_bc in H.
  cbv zeta in *. rewrite !andb_true_iff in H.
  rewrite !Z.leb_le, !Z.ltb_lt, !Z.eqb_eq in H. intuition lia.
Qed.

(** One alphabet character moves the decoder one position on. *)
Lemma a2b_sextet (s : Z) (cs : list Z) (q : nat) (left : Z) (pads : nat) (out : list Z) :
  0 <= s < 64 ->
  a2b (table_b2a s :: cs) q left pads out
  = match q with
    | 0%nat => a2b cs 1%nat s 0%nat out
    | 1%nat => a2b cs 2%nat (Z.land s 15) 0%nat
                   (out ++ [Z.lor (Z.shiftl left 2) (Z.shiftr s 4)])
    | 2%nat => a2b cs 3%nat (Z.land s 3) 0%nat
                   (out ++ [Z.lor (Z.shiftl left 4) (Z.shiftr s 2)])
    | _ => a2b cs 0%nat 0 0%nat (out ++ [Z.lor (Z.shiftl left 6) s])
    end.
Proof.
  intros Hs. destruct (table_round_trip s Hs) as (Hround & Hpad & _).
  cbn [a2b]. apply Z.eqb_neq in Hpad. rewrite Hpad, Hround. reflexivity.
Qed.

Lemma a2b_b2a (n : nat) (bs out : list Z) :
  (length bs <= n)%nat -> Forall (fun b => 0 <= b < 256) bs ->
  a2b (b2a bs) 0%nat 0 0%nat out = Ok (out ++ bs).
Proof.
  revert bs out. induction n as [|n IH]; intros bs out Hlen Hbs.
  - destruct bs; [|cbn in Hlen; lia]. rewrite app_nil_r. reflexivity.
  - destruct bs as [|a [|b [|c rest]]].
    + rewrite app_nil_r. reflexivity.
    + inversion Hbs as [|? ? Ha _]; subst.
      destruct (split_ab_facts a 0 Ha ltac:(lia)) as (H0 & H1 & Hout & _).
      cbv zeta in *. rewrite Z.shiftr_0_l, Z.lor_0_r in H1, Hout.
      cbn [b2a]. rewrite (a2b_sextet _ _ _ _ _ _ H0), (a2b_sextet _ _ _ _ _ _ H1), Hout.
      reflexivity.
    + inversion Hbs as [|? ? Ha Hbs']; subst. inversion Hbs' as [|? ? Hb _]; subst.
      destruct (split_ab_facts a b Ha Hb) as (H0 & H1 & Hout1 & Hleft).
      destruct (split_bc_facts b 0 Hb ltac:(lia)) as (H2 & _ & Hout2 & _).
      cbv zeta in *. rewrite Z.shiftr_0_l, Z.lor_0_r in H2, Hout2.
      cbn [b2a].
      rewrite (a2b_sextet _ _ _ _ _ _ H0), (a2b_sextet _ _ _ _ _ _ H1),
        (a2b_sextet _ _ _ _ _ _ H2), Hout1, Hleft, Hout2.
      cbn. rewrite <- app_assoc. reflexivity.
    + inversion Hbs as [|? ? Ha Hbs']; subst. inversion Hbs' as [|? ? Hb Hbs'']; subst.
      inversion Hbs'' as [|? ? Hc Hrest]; subst.
      destruct (split_ab_facts a b Ha Hb) as (H0 & H1 & Hout1 & Hleft).
      destruct (split_bc_facts b c Hb Hc) as (H2 & H3 & Hout2 & Hout3).
      cbv zeta in *. cbn [b2a].
      rewrite (a2b_sextet _ _ _ _ _ _ H0), (a2b_sextet _ _ _ _ _ _ H1),
        (a2b_sextet _ _ _ _ _ _ H2), (a2b_sextet _ _ _ _ _ _ H3),
        Hout1, Hleft, Hout2, Hout3.
      rewrite IH by (cbn in Hlen; first [exact Hrest | lia]).
      rewrite <- !app_assoc. reflexivity.
Qed.

Lemma table_b2a_ascii (s : Z) : 0 <= s < 64 -> 0 <= table_b2a s < 128.
Proof. intros Hs. apply table_round_trip, Hs. Qed.

Lemma b2a_ascii (n : nat) (bs : list Z) :
  (length bs <= n)%nat -> Forall (fun b => 0 <= b < 256) bs ->
  Forall (fun c => 0 <= c < 128) (b2a bs).
Proof.
  revert bs. induction n as [|n IH]; intros bs Hlen Hbs.
  - destruct bs; [constructor | cbn in Hlen; lia].
  - destruct bs as [|a [|b [|c rest]]].
    + constructor.
    + inversion Hbs as [|? ? Ha _]; subst.
      destruct (split_ab_facts a 0 Ha ltac:(lia)) as (H0 & H1 & _).
      cbv zeta in *. rewrite Z.shiftr_0_l, Z.lor_0_r in H1.
      cbn [b2a].
      repeat (constructor; [first [apply table_b2a_ascii; assumption | unfold pad_char; lia]|]).
      constructor.
    + inversion Hbs as [|? ? Ha Hbs']; subst. inversion Hbs' as [|? ? Hb _]; subst.
      destruct (split_ab_facts a b Ha Hb) as (H0 & H1 & _).
      destruct (split_bc_facts b 0 Hb ltac:(lia)) as (H2 & _).
      cbv zeta in *. rewrite Z.shiftr_0_l, Z.lor_0_r in H2.
      cbn [b2a].
      repeat (constructor; [first [apply table_b2a_ascii; assumption | unfold pad_char; lia]|]).
      constructor.
    + inversion Hbs as [|? ? Ha Hbs']; subst. inversion Hbs' as [|? ? Hb Hbs'']; subst.
      inversion Hbs'' as [|? ? Hc Hrest]; subst.
      destruct (split_ab_facts a b Ha Hb) as (H0 & H1 & _).
      destruct (split_bc_facts b c Hb Hc) as (H2 & H3 & _).
      cbv zeta in *. cbn [b2a].
      repeat (constructor; [apply table_b2a_ascii; assumption|]).
      apply IH; [cbn in Hlen; lia | exact Hrest].
Qed.

(** [b64decode] gives back the bytes [b64encode] was given, through the
    [str] that [decode()] makes of its output. *)
Lemma b64decode_b64encode (bs : bytes) :
  b64decode (decode_ascii (b64encode bs)) = Ok bs.
Proof.
  unfold b64decode, decode_ascii, b64encode.
  set (zs := List.map Z_of_byte bs).
  assert (Forall (fun b => 0 <= b < 256) zs) as Hzs.
  { subst zs. apply List.Forall_forall. intros z Hz.
    apply in_map_iff in Hz as (b & <- & _). apply Z_of_byte_range. }
  pose proof (b2a_ascii _ zs (Nat.le_refl _) Hzs) as Hascii.
  rewrite list_ascii_of_string_of_list_ascii.
  assert (List.map code_point (List.map ascii_of_byte (List.map byte_of_Z (b2a zs)))
          = b2a zs) as ->.
  { rewrite !List.map_map. induction Hascii as [|c cs Hc _ IH]; [reflexivity|].
    cbn [List.map]. rewrite IH, code_point_of_Z by lia. reflexivity. }
  assert (forallb (fun c => c <? 128) (b2a zs) = true) as ->.
  { apply forallb_forall. intros c Hc. rewrite List.Forall_forall in Hascii.
    apply Z.ltb_lt, Hascii, Hc. }
  rewrite (a2b_b2a _ zs [] (Nat.le_refl _) Hzs), bind_Ok. cbn [app]. f_equal.
  subst zs. rewrite List.map_map. clear. induction bs as [|b bs IH]; [reflexivity|].
  cbn [List.map]. rewrite byte_of_Z_of_byte, IH. reflexivity.
Qed.

End Base64Facts.

(** ** Signatures *)

Section WalletFacts.
Context {E : Ecdsa}.

Lemma verify_signature_decoded (vk : VerifyingKey) (art_hash signature : string)
    (sig : bytes) :
  Base64.b64decode signature = Ok sig ->
  verify_signature vk art_hash signature
  = try_except (vk_verify vk sig (encode art_hash)) false.
Proof. unfold verify_signature. intros ->. reflexivity. Qed.

Lemma verify_signature_undecodable (vk : VerifyingKey) (art_hash signature : string)
    (e : exn) :
  Base64.b64decode signature = Raise e ->
  verify_signature vk art_hash signature = Ok false.
Proof. unfold verify_signature. intros ->. reflexivity. Qed.


End WalletFacts.

(** C7. Whatever the key, the message and the signature string are,
    [verify_signature] returns a boolean and raises nothing; it returns
    [False] when the string is not decodable base64 and when [vk.verify]
    raises (a key of another curve, a malformed or a wrong signature); it
    returns what [vk.verify] returns otherwise. *)
Theorem verify_signature_never_raises {E : Ecdsa}
    (vk : VerifyingKey) (art_hash signature : string) :
  (exists b : bool, verify_signature vk art_hash signature = Ok b)
  /\ (forall e, Base64.b64decode signature = Raise e ->
       verify_signature vk art_hash signature = Ok false)
  /\ (forall sig e, Base64.b64decode signature = Ok sig ->
       vk_verify vk sig (encode art_hash) = Raise e ->
       verify_signature vk art_hash signature = Ok false)
  /\ (forall sig b, Base64.b64decode signature = Ok sig ->
       vk_verify vk sig (encode art_hash) = Ok b ->
       verify_signature vk art_hash signature = Ok b).
Proof.
  repeat apply conj.
  - unfold verify_signature.
    destruct (Base64.b64decode signature) as [sig|e]; [|exists false; reflexivity].
    rewrite bind_Ok. destruct (vk_verify vk sig (encode art_hash)) as [b|e];
      [exists b | exists false]; reflexivity.
  - intros e. apply verify_signature_undecodable.
  - intros sig e Hsig Hv. rewrite (verify_signature_decoded _ _ _ _ Hsig), Hv. reflexivity.
  - intros sig b Hsig Hv. rewrite (verify_signature_decoded _ _ _ _ Hsig), Hv. reflexivity.
Qed.


(** ** Hashing at construction, app2.py *)

(** After [__init__] the attribute dictionary holds [hash], and
    [compute_hash] of app2.py hashes the whole dictionary. *)
Lemma app2_compute_hash_Block_init
    (index timestamp art_hash owner metadata previous_hash : json) :
  let d := [ ("index", index); ("timestamp", timestamp); ("art_hash", art_hash);
             ("owner", owner); ("metadata", metadata);
             ("previous_hash", previous_hash); ("nonce", JInt 0) ] in
  App2.hash (App2.Block_init index timestamp art_hash owner metadata previous_hash)
    = JStr (App2.compute_hash_of d)
  /\ App2.compute_hash
       (App2.Block_init index timestamp art_hash owner metadata previous_hash)
     = App2.compute_hash_of (d ++ [("hash", JStr (App2.compute_hash_of d))]).
Proof. split; reflexivity. Qed.

(** C1, app2.py. The record [add_block] appends for alice to a fresh chain,
    never modified: its stored hash is 1049..., [compute_hash] returns
    fd63..., so re-hashing does not reproduce the stored hash and
    [is_chain_valid] rejects the chain that was just built. *)
Theorem app2_compute_hash_differs_from_stored :
  App2.add_block sample_fresh2 sample_t1 (JStr "abc123") (JStr "alice") sample_title
    = Ok (sample_alice2, sample_chain2)
  /\ App2.hash sample_alice2
     = JStr "1049992a9032772147d3130197b06c4a264a5d7aafe6a00f55f870e956da77c5"
  /\ App2.compute_hash sample_alice2
     = "fd6327f0d5fa2b2352ea9c6e8212bfcb2c6f07164485deab8b1c9604847282af"
  /\ App2.hash sample_alice2 <> JStr (App2.compute_hash sample_alice2)
  /\ App2.is_chain_valid sample_chain2 = Ok false.
Proof.
  repeat apply conj; try (vm_compute; reflexivity).
  vm_compute. discriminate.
Qed.

(** The same scenario in app3.py: the stored hash is reproduced and the
    chain is accepted. *)
Example app3_compute_hash_equals_stored :
  App3.add_block sample_fresh3 sample_t1 (JStr "abc123") (JStr "alice") JNull JNull sample_title
    = Ok (sample_alice3, sample_chain3)
  /\ App3.hash sample_alice3
     = JStr "fd81da19b5a0beb393f221ef22ba0974b3e80d4a1a241fa5c53d34a079333241"
  /\ App3.compute_hash sample_alice3
     = "fd81da19b5a0beb393f221ef22ba0974b3e80d4a1a241fa5c53d34a079333241"
  /\ App3.is_chain_valid sample_chain3 = Ok true.
Proof. repeat apply conj; vm_compute; reflexivity. Qed.

(** ** The text [json.dumps] produces determines the value *)

Lemma append_String (c : ascii) (s t : string) : String c s +:+ t = String c (s +:+ t).
Proof. reflexivity. Qed.

Lemma append_nil_l (s : string) : "" +:+ s = s.
Proof. reflexivity. Qed.

Lemma append_nil_r (s : string) : s +:+ "" = s.
Proof. induction s as [|c s IH]; [reflexivity|]. rewrite append_String, IH. reflexivity. Qed.

Lemma append_assoc (s t u : string) : (s +:+ t) +:+ u = s +:+ (t +:+ u).
Proof.
  induction s as [|c s IH]; [reflexivity|]. rewrite !append_String, IH. reflexivity.
Qed.

Create Rewrite HintDb strapp.
#[local] Hint Rewrite append_assoc append_String append_nil_l : strapp.

Lemma unescape_escape_char (c : ascii) (r : string) :
  unescape_step (escape_char c +:+ r) = Some (c, r).
Proof. destruct c as [[] [] [] [] [] [] [] []]; reflexivity. Qed.

Lemma escape_inj (s t u v : string) :
  escape s +:+ String dquote u = escape t +:+ String dquote v -> s = t /\ u = v.
Proof.
  revert t. induction s as [|c s IH]; intros [|c' t] H; cbn [escape] in H;
    autorewrite with strapp in H.
  - injection H as ->. split; reflexivity.
  - apply (f_equal unescape_step) in H. rewrite unescape_escape_char in H. discriminate.
  - apply (f_equal unescape_step) in H. rewrite unescape_escape_char in H. discriminate.
  - pose proof (f_equal unescape_step H) as Hstep.
    rewrite !unescape_escape_char in Hstep. injection Hstep as -> Hrest.
    apply IH in Hrest as [-> ->]. split; reflexivity.
Qed.

Lemma quote_inj (s t u v : string) :
  quote s +:+ u = quote t +:+ v -> s = t /\ u = v.
Proof.
  unfold quote. autorewrite with strapp. intros [= H]. apply escape_inj, H.
Qed.

(** Decimal numerals, followed by something that is not a digit. *)
Lemma uint_string_inj (d d' : Decimal.uint) (u v : string) :
  terminator u -> terminator v ->
  NilEmpty.string_of_uint d +:+ u = NilEmpty.string_of_uint d' +:+ v ->
  d = d' /\ u = v.
Proof.
  intros Hu Hv. revert d'.
  induction d as [|d IH|d IH|d IH|d IH|d IH|d IH|d IH|d IH|d IH|d IH]; intros d' H;
    destruct d' as [|d'|d'|d'|d'|d'|d'|d'|d'|d'|d'];
    cbn [NilEmpty.string_of_uint] in H; autorewrite with strapp in H;
    try (split; [reflexivity | exact H]);
    try (subst u; cbn in Hu; discriminate Hu);
    try (subst v; cbn in Hv; discriminate Hv);
    try discriminate H;
    injection H as H; apply IH in H as [-> ->]; split; reflexivity.
Qed.

Lemma uint_string_head (d : Decimal.uint) (u : string) :
  d <> Decimal.Nil ->
  exists c r, NilEmpty.string_of_uint d +:+ u = String c r /\ is_digit c = true.
Proof.
  intros Hd. destruct d; [contradiction|..];
    cbn [NilEmpty.string_of_uint]; rewrite append_String; eauto.
Qed.

Lemma to_int_nonnil (n : Z) :
  exists d, d <> Decimal.Nil
            /\ (Z.to_int n = Decimal.Pos d \/ Z.to_int n = Decimal.Neg d).
Proof.
  destruct n as [|p|p]; cbn [Z.to_int].
  - exists Decimal.zero. split; [discriminate | left; reflexivity].
  - exists (Pos.to_uint p). split; [apply DecimalPos.Unsigned.to_uint_nonnil | left; reflexivity].
  - exists (Pos.to_uint p). split; [apply DecimalPos.Unsigned.to_uint_nonnil | right; reflexivity].
Qed.

Lemma nilzero_nonnil (d : Decimal.uint) :
  d <> Decimal.Nil -> NilZero.string_of_uint d = NilEmpty.string_of_uint d.
Proof. destruct d; [contradiction | reflexivity..]. Qed.

(** A number starts with a digit or with a minus sign. *)
Lemma repr_int_head (n : Z) (u : string) :
  exists c r, repr_int n +:+ u = String c r /\ (is_digit c = true \/ c = "-"%char).
Proof.
  unfold repr_int. destruct (to_int_nonnil n) as (d & Hd & [-> | ->]);
    cbn [NilZero.string_of_int]; rewrite (nilzero_nonnil d Hd).
  - destruct (uint_string_head d u Hd) as (c & r & -> & Hc). eauto.
  - rewrite append_String. eauto.
Qed.

Lemma repr_int_inj (n m : Z) (u v : string) :
  terminator u -> terminator v ->
  repr_int n +:+ u = repr_int m +:+ v -> n = m /\ u = v.
Proof.
  intros Hu Hv H. unfold repr_int in H.
  assert (Z.to_int n = Z.to_int m /\ u = v) as [Heq ->].
  { destruct (to_int_nonnil n) as (d & Hd & [Hn | Hn]);
      destruct (to_int_nonnil m) as (d' & Hd' & [Hm | Hm]);
      rewrite Hn, Hm in H |- *; cbn [NilZero.string_of_int] in H;
      rewrite (nilzero_nonnil d Hd), (nilzero_nonnil d' Hd') in H.
    - apply uint_string_inj in H as [-> ->]; [split; reflexivity | assumption..].
    - exfalso. destruct (uint_string_head d u Hd) as (c & r & Hc & Hdig).
      rewrite Hc, append_String in H. injection H as -> _. discriminate Hdig.
    - exfalso. destruct (uint_string_head d' v Hd') as (c & r & Hc & Hdig).
      rewrite Hc, append_String in H. injection H as <- _. discriminate Hdig.
    - rewrite !append_String in H. injection H as H.
      apply uint_string_inj in H as [-> ->]; [split; reflexivity | assumption..]. }
  split; [|reflexivity].
  rewrite <- (DecimalZ.of_to n), <- (DecimalZ.of_to m), Heq. reflexivity.
Qed.

(** Induction on values, with the hypothesis for every item of a list and
    every value of a dictionary. *)
Lemma json_nested_ind (P : json -> Prop) :
  P JNull -> (forall b, P (JBool b)) -> (forall n, P (JInt n)) -> (forall s, P (JStr s)) ->
  (forall l, Forall P l -> P (JList l)) ->
  (forall d, Forall (fun kv => P (snd kv)) d -> P (JObj d)) ->
  forall v, P v.
Proof.
  intros Hnull Hbool Hint Hstr Hlist Hobj.
  fix IH 1. intros [|b|n|s|l|d].
  - exact Hnull.
  - apply Hbool.
  - apply Hint.
  - apply Hstr.
  - apply Hlist. induction l as [|x l IHl]; constructor; [apply IH | exact IHl].
  - apply Hobj. induction d as [|[k x] d IHd]; constructor; [apply IH | exact IHd].
Qed.

Lemma join_cons_app (sep a w : string) (rest : list string) :
  join sep (a :: rest) +:+ w
  = a +:+ match rest with
          | [] => w
          | _ :: _ => sep +:+ (join sep rest +:+ w)
          end.
Proof.
  destruct rest as [|b rest]; [reflexivity|].
  cbn [join]. rewrite !append_assoc. reflexivity.
Qed.

Lemma render_head (v : json) (u : string) :
  exists c r, render v +:+ u = String c r /\ start_kind c = json_kind v.
Proof.
  destruct v as [|[]|n|s|l|d]; cbn [render json_kind]; unfold quote;
    autorewrite with strapp; eauto.
  destruct (repr_int_head n u) as (c & r & -> & [Hc | Hc]); exists c, r;
    (split; [reflexivity|]); [|subst c; reflexivity].
  unfold start_kind. rewrite Hc. unfold is_digit in Hc. cbv zeta in Hc |- *.
  apply andb_true_iff in Hc as [H1 H2]. apply Z.leb_le in H1, H2.
  repeat match goal with
  | |- context [Z.eqb ?x ?y] => destruct (Z.eqb_spec x y); try lia
  end.
  reflexivity.
Qed.

Lemma render_kind (x y : json) (u v : string) :
  render x +:+ u = render y +:+ v -> json_kind x = json_kind y.
Proof.
  intros H. destruct (render_head x u) as (c & r & Hx & <-).
  destruct (render_head y v) as (c' & r' & Hy & <-).
  rewrite Hx, Hy in H. injection H as -> _. reflexivity.
Qed.

Lemma render_items_inj (l : list json) :
  Forall read_once l ->
  forall (l' : list json) (u v : string),
    join ", " (List.map render l) +:+ String "]" u
    = join ", " (List.map render l') +:+ String "]" v ->
    l = l' /\ u = v.
Proof.
  induction 1 as [|x l Hx _ IH]; intros [|y l'] u v H; cbn [List.map] in H.
  - cbn [join] in H. autorewrite with strapp in H. injection H as ->. split; reflexivity.
  - exfalso. rewrite join_cons_app in H. cbn [join] in H. rewrite append_nil_l in H.
    match type of H with
    | _ = render y +:+ ?w => destruct (render_head y w) as (c & r & Hc & Hk)
    end.
    rewrite Hc in H. injection H as Hc' _. subst c. destruct y as [| | | | |]; discriminate Hk.
  - exfalso. rewrite join_cons_app in H. cbn [join] in H. rewrite append_nil_l in H.
    match type of H with
    | render x +:+ ?w = _ => destruct (render_head x w) as (c & r & Hc & Hk)
    end.
    rewrite Hc in H. injection H as Hc' _. subst c. destruct x as [| | | | |]; discriminate Hk.
  - rewrite !join_cons_app in H. apply Hx in H as [<- H].
    + destruct l as [|x2 l], l' as [|y2 l']; cbn [List.map] in H;
        autorewrite with strapp in H.
      * injection H as ->. split; reflexivity.
      * discriminate H.
      * discriminate H.
      * injection H as H. apply (IH (y2 :: l')) in H as [-> ->]. split; reflexivity.
    + destruct (List.map render l); reflexivity.
    + destruct (List.map render l'); reflexivity.
Qed.

Lemma dumps_item_pair (k t : string) : dumps_item (k, t) = quote k +:+ ": " +:+ t.
Proof. reflexivity. Qed.

Lemma render_fields_inj (d : dict) :
  Forall (fun kv => read_once (snd kv)) d ->
  forall (d' : dict) (u v : string),
    join ", " (List.map dumps_item (List.map (fun kv => (fst kv, render (snd kv))) d))
      +:+ String "}" u
    = join ", " (List.map dumps_item (List.map (fun kv => (fst kv, render (snd kv))) d'))
      +:+ String "}" v ->
    d = d' /\ u = v.
Proof.
  induction 1 as [|[k x] d Hx _ IH]; intros [|[k' y] d'] u v H; cbn [List.map fst snd] in H.
  - cbn [join] in H. autorewrite with strapp in H. injection H as ->. split; reflexivity.
  - exfalso. rewrite join_cons_app in H. cbn [join] in H.
    rewrite dumps_item_pair in H. unfold quote in H. autorewrite with strapp in H.
    discriminate H.
  - exfalso. rewrite join_cons_app in H. cbn [join] in H.
    rewrite dumps_item_pair in H. unfold quote in H. autorewrite with strapp in H.
    discriminate H.
  - rewrite !join_cons_app, !dumps_item_pair in H.
    rewrite !append_assoc in H. apply quote_inj in H as [<- H].
    autorewrite with strapp in H. injection H as H.
    apply Hx in H as [<- H].
    + destruct d as [|[k2 x2] d], d' as [|[k2' y2] d']; cbn [List.map] in H;
        autorewrite with strapp in H.
      * injection H as ->. split; reflexivity.
      * discriminate H.
      * discriminate H.
      * injection H as H. apply (IH ((k2', y2) :: d')) in H as [-> ->]. split; reflexivity.
    + destruct d as [|[] ?]; reflexivity.
    + destruct d' as [|[] ?]; reflexivity.
Qed.

Lemma render_read_once (x : json) : read_once x.
Proof.
  induction x as [|b|n|s|l IHl|d IHd] using json_nested_ind; intros y u v Hu Hv H;
    pose proof (render_kind _ _ _ _ H) as Hkind;
    destruct y as [|b'|n'|s'|l'|d']; try discriminate Hkind; clear Hkind;
    cbn [render] in H.
  - autorewrite with strapp in H. injection H as ->. split; reflexivity.
  - destruct b, b'; autorewrite with strapp in H; try discriminate H;
      injection H as ->; split; reflexivity.
  - apply repr_int_inj in H as [-> ->]; [split; reflexivity | assumption..].
  - apply quote_inj in H as [-> ->]. split; reflexivity.
  - autorewrite with strapp in H. injection H as H.
    apply (render_items_inj l IHl) in H as [-> ->]. split; reflexivity.
  - autorewrite with strapp in H. injection H as H.
    apply (render_fields_inj d IHd) in H as [-> ->]. split; reflexivity.
Qed.

(** Two values with the same text are the same value. *)
Lemma render_inj (x y : json) : render x = render y -> x = y.
Proof.
  intros H. apply (render_read_once x y "" ""); [exact I | exact I |].
  rewrite !append_nil_r. exact H.
Qed.

(** Sorting looks at keys only. *)
Lemma insert_item_map {A B : Type} (f : A -> B) (x : string * A) (l : list (string * A)) :
  insert_item (fst x, f (snd x)) (List.map (fun kv => (fst kv, f (snd kv))) l)
  = List.map (fun kv => (fst kv, f (snd kv))) (insert_item x l).
Proof.
  induction l as [|y l IH]; [reflexivity|].
  cbn [List.map insert_item fst]. destruct (String.ltb (fst x) (fst y)); [reflexivity|].
  cbn [List.map]. rewrite IH. reflexivity.
Qed.

Lemma sort_items_map {A B : Type} (f : A -> B) (l : list (string * A)) :
  sort_items (List.map (fun kv => (fst kv, f (snd kv))) l)
  = List.map (fun kv => (fst kv, f (snd kv))) (sort_items l).
Proof.
  unfold sort_items.
  change (@nil (string * B)) with (List.map (fun kv : string * A => (fst kv, f (snd kv))) []).
  generalize (@nil (string * A)) as acc.
  induction l as [|x l IH]; intros acc; [reflexivity|].
  cbn [List.map fold_left]. rewrite (insert_item_map f x acc). apply IH.
Qed.

Lemma dumps_JList (l : list json) :
  dumps (JList l) = "[" +:+ join ", " (List.map dumps l) +:+ "]".
Proof. reflexivity. Qed.

Lemma dumps_JObj (d : dict) :
  dumps (JObj d)
  = "{" +:+ join ", " (List.map dumps_item
                        (sort_items (List.map (fun kv => (fst kv, dumps (snd kv))) d)))
        +:+ "}".
Proof. reflexivity. Qed.

(** [dumps] prints the value with its dictionaries sorted. *)
Lemma dumps_render (v : json) : dumps v = render (canon v).
Proof.
  induction v as [|[]|n|s|l IHl|d IHd] using json_nested_ind; try reflexivity.
  - rewrite dumps_JList. cbn [canon render]. rewrite List.map_map. do 3 f_equal.
    induction IHl as [|x l Hx _ IH]; [reflexivity|]. cbn [List.map]. rewrite Hx, IH.
    reflexivity.
  - rewrite dumps_JObj. cbn [canon render].
    rewrite <- (sort_items_map render), List.map_map. cbn [fst snd]. do 5 f_equal.
    induction IHd as [|[k x] d Hx _ IH]; [reflexivity|]. cbn [List.map fst snd] in Hx |- *.
    rewrite Hx, IH. reflexivity.
Qed.

(** Two values have the same [dumps] text exactly when they are equal up to
    the order of dictionary keys. *)
Lemma dumps_inj (x y : json) : dumps x = dumps y <-> same_value x y.
Proof.
  unfold same_value. rewrite !dumps_render. split; [apply render_inj | congruence].
Qed.



(** ** What the hash of a block covers, app3.py *)

Section App3Content.
Import App3.


(** The attributes in the order [dumps] prints them. *)
Lemma canon_attributes (b : Block) :
  canon (JObj (attributes b))
  = JObj [ ("art_hash", canon (art_hash b)); ("index", canon (index b));
           ("metadata", canon (metadata b)); ("nonce", canon (nonce b));
           ("owner_name", canon (owner_name b)); ("owner_pubkey", canon (owner_pubkey b));
           ("previous_hash", canon (previous_hash b)); ("signature", canon (signature b));
           ("timestamp", canon (timestamp b)) ].
Proof. reflexivity. Qed.

(** The hashed text covers each of the nine attributes. *)
Lemma same_attributes_iff (b b' : Block) :
  same_attributes b b' <->
  same_value (index b) (index b') /\ same_value (timestamp b) (timestamp b')
  /\ same_value (art_hash b) (art_hash b') /\ same_value (owner_name b) (owner_name b')
  /\ same_value (owner_pubkey b) (owner_pubkey b')
  /\ same_value (signature b) (signature b')
  /\ same_value (metadata b) (metadata b')
  /\ same_value (previous_hash b) (previous_hash b')
  /\ same_value (nonce b) (nonce b').
Proof.
  unfold same_attributes, same_value. rewrite !canon_attributes.
  split.
  - intros [= H1 H2 H3 H4 H5 H6 H7 H8 H9]. tauto.
  - intros (H1 & H2 & H3 & H4 & H5 & H6 & H7 & H8 & H9). congruence.
Qed.




End App3Content.

(** ** What the hash of a block covers, app2.py *)



(** ** Tamper and linkage detection *)


(** ** Instances on the sample data *)



Lemma load_missing_field_fails_witness :
  (exists e, App3.load (Some (JList [JObj sample_no_hash])) sample_t1 = Raise e)
  /\ Forall2 (fun item b => App3.load_block item = Ok b)
       [JObj (App3.__dict__ sample_genesis3)] (App3.chain sample_fresh3)
  /\ (exists e, App2.load (Some (JList [JObj sample_no_hash])) sample_t1 = Raise e)
  /\ Forall2 (fun item b => App2.load_block item = Ok b)
       [JObj (App2.__dict__ sample_genesis2)] (App2.chain sample_fresh2).
Proof.
  destruct load_missing_field_fails as (H3 & K3 & H2 & K2).
  repeat apply conj.
  - apply (H3 [JObj sample_no_hash] sample_no_hash "hash" sample_t1).
    + left. reflexivity.
    + cbn. tauto.
    + reflexivity.
  - apply (K3 [JObj (App3.__dict__ sample_genesis3)] sample_t1 sample_fresh3). reflexivity.
  - apply (H2 [JObj sample_no_hash] sample_no_hash "hash" sample_t1).
    + left. reflexivity.
    + cbn. tauto.
    + reflexivity.
  - apply (K2 [JObj (App2.__dict__ sample_genesis2)] sample_t1 sample_fresh2). reflexivity.
Defined.



Lemma verify_signature_never_raises_witness :
  (exists b : bool,
      verify_signature (E := toy_ecdsa) "A"%byte "abc123" "not-a-signature" = Ok b)
  /\ verify_signature (E := toy_ecdsa) "A"%byte "abc123" "not-a-signature" = Ok false
  /\ verify_signature (E := toy_ecdsa) "A"%byte "abc123" "QmFiYzEyMw==" = Ok false
  /\ verify_signature (E := toy_ecdsa) "A"%byte "abc123" "QWFiYzEyMw==" = Ok true.
Proof.
  repeat apply conj.
  - apply (verify_signature_never_raises (E := toy_ecdsa) "A"%byte "abc123" "not-a-signature").
  - apply (proj1 (proj2 (verify_signature_never_raises (E := toy_ecdsa)
                           "A"%byte "abc123" "not-a-signature")) BinasciiError).
    vm_compute. reflexivity.
  - apply (proj1 (proj2 (proj2 (verify_signature_never_raises (E := toy_ecdsa)
                                  "A"%byte "abc123" "QmFiYzEyMw==")))
             (encode "Babc123") BadSignatureError).
    + vm_compute. reflexivity.
    + vm_compute. reflexivity.
  - apply (proj2 (proj2 (proj2 (verify_signature_never_raises (E := toy_ecdsa)
                                  "A"%byte "abc123" "QWFiYzEyMw==")))
             (encode "Aabc123") true).
    + vm_compute. reflexivity.
    + vm_compute. reflexivity.
Defined.


(** * Further properties *)

Lemma forallb_ext_in {A : Type} (f g : A -> bool) (l : list A) :
  (forall x, In x l -> f x = g x) -> forallb f l = forallb g l.
Proof.
  induction l as [|x l IH]; intros H; [reflexivity|]. cbn [forallb].
  rewrite (H x) by (left; reflexivity). rewrite IH; [reflexivity|].
  intros y Hy. apply H. right. exact Hy.
Qed.

(** ** The validity scan in full, app3.py *)

Section App3Scan.
Import App3.



(** Only the stored hash of the first record is read. *)
Lemma link_ok_first (b0 b0' : Block) (l : list Block) (i : nat) :
  hash b0' = hash b0 -> (0 < i)%nat -> link_ok (b0' :: l) i = link_ok (b0 :: l) i.
Proof.
  intros Hhash Hi. unfold link_ok. destruct i as [|[|i]]; [lia| |].
  - cbn. rewrite Hhash. reflexivity.
  - reflexivity.
Qed.

(** Appending leaves the earlier links as they were. *)
Lemma link_ok_app (l : list Block) (b : Block) (i : nat) :
  (i < length l)%nat -> link_ok (l ++ [b]) i = link_ok l i.
Proof.
  intros Hi. unfold link_ok. rewrite !lookup_app_l by lia. reflexivity.
Qed.

Lemma is_chain_valid_snoc (l : list Block) (b : Block) :
  l <> [] ->
  is_chain_valid {| chain := l ++ [b] |}
  = Ok (forallb (link_ok l) (seq 1 (length l - 1)) && link_ok (l ++ [b]) (length l)).
Proof.
  intros Hne. rewrite is_chain_valid_spec. cbn [chain]. f_equal.
  assert (0 < length l)%nat as Hlen by (destruct l; [contradiction | cbn; lia]).
  rewrite length_app. cbn [length].
  replace (length l + 1 - 1)%nat with (S (length l - 1)) by lia.
  rewrite seq_S, forallb_app. cbn [forallb].
  replace (1 + (length l - 1))%nat with (length l) by lia.
  rewrite andb_true_r. f_equal.
  apply forallb_ext_in. intros i Hi. apply in_seq in Hi. apply link_ok_app. lia.
Qed.

End App3Scan.


(** X2. The attributes of the first record are never checked: replacing
    the first record by any record with the same stored hash leaves the
    answer of [is_chain_valid] as it was. *)
Theorem first_record_not_checked (b0 b0' : App3.Block) (rest : list App3.Block) :
  App3.hash b0' = App3.hash b0 ->
  App3.is_chain_valid (App3.mkBlockchain (b0' :: rest))
  = App3.is_chain_valid (App3.mkBlockchain (b0 :: rest)).
Proof.
  intros Hhash. rewrite !is_chain_valid_spec. cbn [App3.chain length]. f_equal.
  apply forallb_ext_in. intros i Hi. apply in_seq in Hi.
  apply link_ok_first; [exact Hhash | lia].
Qed.

Lemma first_record_not_checked_witness :
  App3.is_chain_valid
    (App3.mkBlockchain [App3.set_owner_name sample_genesis3 (JStr "mallory"); sample_alice3])
  = App3.is_chain_valid (App3.mkBlockchain [sample_genesis3; sample_alice3]).
Proof.
  apply (first_record_not_checked sample_genesis3
           (App3.set_owner_name sample_genesis3 (JStr "mallory")) [sample_alice3]).
  reflexivity.
Defined.

(** X3. In a chain grown from the constructor by [add_block], the record
    at position [i] has [index] [i]. *)
Theorem created_index_is_position (self : App3.Blockchain) (i : nat) (b : App3.Block) :
  App3.created self -> App3.chain self !! i = Some b -> App3.index b = JInt (Z.of_nat i).
Proof. intros Hcr. apply created_index, Hcr. Qed.

Lemma sample_chain3_created : App3.created sample_chain3.
Proof.
  apply (App3.created_add sample_fresh3 sample_t1 (JStr "abc123") (JStr "alice") JNull JNull
           sample_title sample_alice3 sample_chain3).
  - apply App3.created_init.
  - reflexivity.
Defined.

Lemma created_index_is_position_witness : App3.index sample_alice3 = JInt (Z.of_nat 1).
Proof.
  apply (created_index_is_position sample_chain3 1%nat sample_alice3).
  - exact sample_chain3_created.
  - reflexivity.
Defined.

(** X4. A chain grown from the constructor by [add_block] is accepted by
    [is_chain_valid], and every record of it, the genesis record included,
    stores the hash of its own attributes. *)
Theorem created_chain_is_valid (self : App3.Blockchain) :
  App3.created self ->
  App3.is_chain_valid self = Ok true
  /\ Forall App3.hash_consistent (App3.chain self).
Proof.
  intros Hcr. split; [apply created_valid | apply created_hash_consistent]; exact Hcr.
Qed.

Lemma created_chain_is_valid_witness :
  App3.is_chain_valid sample_chain3 = Ok true
  /\ Forall App3.hash_consistent (App3.chain sample_chain3).
Proof. apply (created_chain_is_valid sample_chain3), sample_chain3_created. Defined.

(** X5. [add_block] neither breaks nor repairs a chain: when the last
    record stores a string as its hash, [is_chain_valid] answers after the
    append what it answered before. *)
Theorem add_block_keeps_validity (self self' : App3.Blockchain) (now h : string)
    (art_hash owner_name owner_pubkey signature metadata : json)
    (old_last new_block : App3.Block) :
  last (App3.chain self) = Some old_last ->
  App3.hash old_last = JStr h ->
  App3.add_block self now art_hash owner_name owner_pubkey signature metadata
    = Ok (new_block, self') ->
  App3.is_chain_valid self' = App3.is_chain_valid self.
Proof.
  intros Hlast Hh Hadd.
  apply add_block_inv in Hadd as (old_last' & Hlast' & Hnew & Hchain).
  rewrite Hlast in Hlast'. injection Hlast' as <-.
  destruct self' as [l']. cbn [App3.chain] in Hchain. subst l'.
  assert (App3.chain self <> []) as Hne by (intros E; rewrite E in Hlast; discriminate).
  rewrite (is_chain_valid_snoc _ _ Hne), is_chain_valid_spec. f_equal.
  assert (App3.link_ok (App3.chain self ++ [new_block]) (length (App3.chain self)) = true)
    as ->; [|apply andb_true_r].
  rewrite last_lookup in Hlast.
  assert (0 < length (App3.chain self))%nat as Hlen
    by (destruct (App3.chain self); [contradiction | cbn; lia]).
  unfold App3.link_ok. rewrite lookup_app_l by lia.
  replace (length (App3.chain self) - 1)%nat with (pred (length (App3.chain self))) by lia.
  rewrite Hlast, list_lookup_middle by reflexivity. subst new_block.
  cbn [App3.previous_hash App3.hash App3.Block_init]. rewrite Hh.
  apply andb_true_iff. split; apply py_eq_JStr_r; reflexivity.
Qed.

Lemma add_block_keeps_validity_witness :
  App3.is_chain_valid sample_chain3 = App3.is_chain_valid sample_fresh3.
Proof.
  apply (add_block_keeps_validity sample_fresh3 sample_chain3 sample_t1
           "8387a950a3a3ebf86a7c6ea9cdec3dbc1aa8ef3a00b410396d4853693cd67dde"
           (JStr "abc123") (JStr "alice") JNull JNull sample_title
           sample_genesis3 sample_alice3).
  - reflexivity.
  - vm_compute. reflexivity.
  - reflexivity.
Defined.

(** ** The validity scan of app2.py *)

Section App2Scan.
Import App2.




Lemma add_block_inv_2 (self self' : Blockchain) (now : string)
    (art_hash owner metadata : json) (new_block : Block) :
  add_block self now art_hash owner metadata = Ok (new_block, self') ->
  exists old_last,
    last (chain self) = Some old_last
    /\ new_block = Block_init (JInt (Z.of_nat (length (chain self)))) (JStr now) art_hash
                     owner metadata (hash old_last)
    /\ chain self' = chain self ++ [new_block].
Proof.
  unfold add_block, getitem_last. destruct (last (chain self)) as [old_last|];
    [|discriminate].
  rewrite bind_Ok. intros [= <- <-]. eauto.
Qed.

End App2Scan.



(** ** More on storage *)

Section App2RoundTrip.
Import App2.

Lemma load_block_dict_2 (b : Block) : load_block (JObj (__dict__ b)) = Ok b.
Proof. destruct b. reflexivity. Qed.

Lemma load_loop_to_dict_2 (l acc : list Block) :
  load_loop (List.map (fun block => JObj (__dict__ block)) l) acc = Ok (acc ++ l).
Proof.
  revert acc. induction l as [|b l IH]; intros acc; cbn [List.map load_loop].
  - rewrite app_nil_r. reflexivity.
  - rewrite load_block_dict_2, bind_Ok, IH, <- app_assoc. reflexivity.
Qed.

End App2RoundTrip.


Lemma app3_load_block_app2_dict (b : App2.Block) :
  App3.load_block (JObj (App2.__dict__ b)) = Raise (KeyError "owner_name").
Proof. destruct b. reflexivity. Qed.

Lemma app2_load_block_app3_dict (b : App3.Block) :
  App2.load_block (JObj (App3.__dict__ b)) = Raise (KeyError "owner").
Proof. destruct b. reflexivity. Qed.

(** X8. The two applications cannot read each other's files: a file saved
    by app2.py with at least one record makes [load] of app3.py raise
    [KeyError('owner_name')], and a file saved by app3.py with at least one
    record makes [load] of app2.py raise [KeyError('owner')]. *)
Theorem storage_formats_incompatible (now : string) :
  (forall self : App2.Blockchain,
      App2.chain self <> [] ->
      App3.load (App2.save self) now = Raise (KeyError "owner_name"))
  /\
  (forall self : App3.Blockchain,
      App3.chain self <> [] ->
      App2.load (App3.save self) now = Raise (KeyError "owner")).
Proof.
  split.
  - intros [[|b l]] Hne; [contradiction|].
    unfold App2.save, App2.to_dict, App3.load, iterate. cbn [App2.chain List.map].
    rewrite bind_Ok. cbn [App3.load_loop]. rewrite app3_load_block_app2_dict. reflexivity.
  - intros [[|b l]] Hne; [contradiction|].
    unfold App3.save, App3.to_dict, App2.load, iterate. cbn [App3.chain List.map].
    rewrite bind_Ok. cbn [App2.load_loop]. rewrite app2_load_block_app3_dict. reflexivity.
Qed.

Lemma storage_formats_incompatible_witness :
  App3.load (App2.save sample_chain2) sample_t1 = Raise (KeyError "owner_name")
  /\ App2.load (App3.save sample_chain3) sample_t1 = Raise (KeyError "owner").
Proof.
  split.
  - apply (proj1 (storage_formats_incompatible sample_t1) sample_chain2). discriminate.
  - apply (proj2 (storage_formats_incompatible sample_t1) sample_chain3). discriminate.
Defined.

Section App3LoadSuccess.
Import App3.

Lemma load_block_not_object (item : json) :
  (forall fields, item <> JObj fields) -> load_block item = Raise TypeError.
Proof. intros H. destruct item; try reflexivity. exfalso. eapply H. reflexivity. Qed.

Lemma load_block_present (fields : dict) :
  Forall (fun k => dict_get k fields <> None) required_keys ->
  exists b, load_block (JObj fields) = Ok b.
Proof.
  intros H. unfold required_keys in H.
  repeat match goal with
  | H : Forall _ (_ :: _) |- _ =>
      let H1 := fresh "Hk" in let H2 := fresh "Hrest" in
      inversion H as [|? ? H1 H2]; subst; clear H
  end.
  unfold load_block, subscript, get_method.
  repeat match goal with
  | Hk : dict_get ?key fields <> None |- _ =>
      destruct (dict_get key fields) eqn:?; [clear Hk | contradiction]
  end.
  rewrite !bind_Ok.
  destruct (dict_get "owner_pubkey" fields), (dict_get "signature" fields),
    (dict_get "nonce" fields); rewrite ?bind_Ok; eauto.
Qed.

Lemma load_block_Ok_iff (item : json) :
  (exists b, load_block item = Ok b)
  <-> exists fields, item = JObj fields
                     /\ Forall (fun k => dict_get k fields <> None) required_keys.
Proof.
  split.
  - intros [b Hb]. destruct item as [| | | | |fields]; try discriminate Hb.
    exists fields. split; [reflexivity|]. apply List.Forall_forall. intros k Hk Hnone.
    destruct (load_block_missing fields k Hk Hnone) as [e He]. congruence.
  - intros (fields & -> & H). apply load_block_present, H.
Qed.

Lemma load_loop_Ok_iff (items : list json) (acc : list Block) :
  (exists l, load_loop items acc = Ok l)
  <-> Forall (fun item => exists b, load_block item = Ok b) items.
Proof.
  revert acc. induction items as [|item items IH]; intros acc; cbn [load_loop].
  - split; [constructor | eauto].
  - split.
    + intros [l Hl]. apply bind_Ok_inv in Hl as (b & Hb & Hl).
      constructor; [eauto | eapply IH; eauto].
    + intros H. inversion H as [|? ? [b Hb] Hrest]; subst.
      rewrite Hb, bind_Ok. apply IH, Hrest.
Qed.

End App3LoadSuccess.

(** X9. [load] returns a chain exactly when every persisted item is an
    object that has the seven keys read with a subscript; in every other
    case it raises. *)
Theorem load_succeeds_iff (items : list json) (now : string) :
  (exists self, App3.load (Some (JList items)) now = Ok self)
  <-> Forall (fun item =>
                exists fields, item = JObj fields
                               /\ Forall (fun k => dict_get k fields <> None)
                                         App3.required_keys) items.
Proof.
  unfold App3.load, iterate. cbn [App3.chain]. rewrite bind_Ok. split.
  - intros [self H]. apply bind_Ok_inv in H as (l & Hl & _).
    assert (exists l, App3.load_loop items [] = Ok l) as Hex by eauto.
    apply load_loop_Ok_iff in Hex. eapply Forall_impl; [exact Hex|].
    intros item Hitem. apply load_block_Ok_iff, Hitem.
  - intros H.
    assert (Forall (fun item => exists b, App3.load_block item = Ok b) items) as H'.
    { eapply Forall_impl; [exact H|]. intros item Hitem. apply load_block_Ok_iff, Hitem. }
    apply (load_loop_Ok_iff items []) in H' as [l Hl]. rewrite Hl, bind_Ok. eauto.
Qed.

Lemma Ok_inj {A : Type} (x y : A) : Ok x = Ok y -> x = y.
Proof. intros [= ->]. reflexivity. Qed.

Lemma dict_get_app_other (k k' : string) (v : json) (d : dict) :
  k' <> k -> dict_get k' (d ++ [(k, v)]) = dict_get k' d.
Proof.
  intros Hne. induction d as [|[k0 v0] d IH]; cbn [app dict_get].
  - destruct (String.eqb_spec k' k); [contradiction | reflexivity].
  - rewrite IH. reflexivity.
Qed.

Section App3LoadReads.
Import App3.

Lemma load_block_reads (fields : dict) (b : Block) :
  load_block (JObj fields) = Ok b ->
  dict_get "index" fields = Some (index b)
  /\ dict_get "timestamp" fields = Some (timestamp b)
  /\ dict_get "art_hash" fields = Some (art_hash b)
  /\ dict_get "owner_name" fields = Some (owner_name b)
  /\ dict_get "metadata" fields = Some (metadata b)
  /\ dict_get "previous_hash" fields = Some (previous_hash b)
  /\ dict_get "hash" fields = Some (hash b)
  /\ owner_pubkey b = default JNull (dict_get "owner_pubkey" fields)
  /\ signature b = default JNull (dict_get "signature" fields)
  /\ nonce b = default (JInt 0) (dict_get "nonce" fields).
Proof.
  intros H. unfold load_block, subscript, get_method in H.
  repeat match type of H with
  | context [dict_get ?key fields] =>
      destruct (dict_get key fields) eqn:?; rewrite ?bind_Ok, ?bind_Raise in H;
      try discriminate H
  end;
  apply Ok_inj in H; subst b; repeat split.
Qed.

End App3LoadReads.

(** X10. [load] takes every attribute from the file as it stands: the
    stored hash is kept, not recomputed, and a record that has no
    [owner_pubkey], no [signature] and no [nonce] key loads with [None],
    [None] and 0 there. *)
Theorem load_keeps_hash_and_fills_defaults (fields : dict) (b : App3.Block) :
  dict_get "owner_pubkey" fields = None ->
  dict_get "signature" fields = None ->
  dict_get "nonce" fields = None ->
  App3.load_block (JObj fields) = Ok b ->
  App3.owner_pubkey b = JNull /\ App3.signature b = JNull /\ App3.nonce b = JInt 0
  /\ dict_get "hash" fields = Some (App3.hash b)
  /\ dict_get "index" fields = Some (App3.index b)
  /\ dict_get "owner_name" fields = Some (App3.owner_name b)
  /\ dict_get "previous_hash" fields = Some (App3.previous_hash b).
Proof.
  intros Hpk Hsg Hn Hb. apply load_block_reads in Hb.
  rewrite Hpk, Hsg, Hn in Hb. cbn [default] in Hb. tauto.
Qed.

Lemma load_keeps_hash_and_fills_defaults_witness :
  exists b : App3.Block,
    App3.load_block (JObj sample_legacy) = Ok b
    /\ App3.owner_pubkey b = JNull /\ App3.signature b = JNull /\ App3.nonce b = JInt 0
    /\ dict_get "hash" sample_legacy = Some (App3.hash b)
    /\ dict_get "index" sample_legacy = Some (App3.index b)
    /\ dict_get "owner_name" sample_legacy = Some (App3.owner_name b)
    /\ dict_get "previous_hash" sample_legacy = Some (App3.previous_hash b).
Proof.
  eexists. split; [reflexivity|].
  apply (load_keeps_hash_and_fills_defaults sample_legacy); reflexivity.
Defined.

(** X11. [load] reads no other key: a key that is not one of the ten
    attribute names, added to a persisted record, changes nothing in what
    [load] makes of the record (and so is gone after the next [save]). *)
Theorem load_ignores_unknown_keys (fields : dict) (k : string) (v : json) :
  ~ In k [ "index"; "timestamp"; "art_hash"; "owner_name"; "owner_pubkey"; "signature";
           "metadata"; "previous_hash"; "nonce"; "hash" ] ->
  App3.load_block (JObj (fields ++ [(k, v)])) = App3.load_block (JObj fields).
Proof.
  intros Hk. unfold App3.load_block, subscript, get_method.
  rewrite !dict_get_app_other; [reflexivity|..];
    intros <-; apply Hk; cbn; tauto.
Qed.

Lemma load_ignores_unknown_keys_witness :
  App3.load_block (JObj (sample_legacy ++ [("price", JInt 5)]))
  = App3.load_block (JObj sample_legacy).
Proof.
  apply (load_ignores_unknown_keys sample_legacy "price" (JInt 5)).
  cbn. intuition discriminate.
Defined.

(** X12. When the storage file does not hold a list: an empty object and
    an empty string load as a chain without records, every other value
    makes [load] raise [TypeError]. *)
Theorem load_of_non_list (data : json) (now : string) :
  (forall items, data <> JList items) ->
  App3.load (Some data) now
  = match data with
    | JObj [] | JStr EmptyString => Ok (App3.mkBlockchain [])
    | _ => Raise TypeError
    end.
Proof.
  intros Hdata. destruct data as [| | |s|l|d]; try reflexivity.
  - destruct s; reflexivity.
  - exfalso. eapply Hdata. reflexivity.
  - destruct d as [|[k v] d]; reflexivity.
Qed.

Lemma load_of_non_list_witness :
  App3.load (Some (JObj [("chain", JList [])])) sample_t0 = Raise TypeError.
Proof.
  apply (load_of_non_list (JObj [("chain", JList [])]) sample_t0). discriminate.
Defined.

(** ** The shape of a digest *)

Lemma hex_chars_of_byte (b : Z) :
  0 <= b < 256 ->
  is_hex_char (hex_digit (Z.shiftr b 4)) && is_hex_char (hex_digit (Z.land b 15)) = true.
Proof.
  apply (Z_range_forallb 256
           (fun b => is_hex_char (hex_digit (Z.shiftr b 4))
                     && is_hex_char (hex_digit (Z.land b 15)))).
  vm_compute. reflexivity.
Qed.

Lemma hex_format (bs : list Z) :
  Forall (fun b => 0 <= b < 256) bs ->
  String.length (SHA256.hex bs) = (2 * length bs)%nat
  /\ string_forall is_hex_char (SHA256.hex bs) = true.
Proof.
  induction 1 as [|b bs Hb _ [IHlen IHhex]]; [split; reflexivity|].
  cbn [SHA256.hex String.length string_forall length]. split; [lia|].
  pose proof (hex_chars_of_byte b Hb) as Hc. apply andb_true_iff in Hc as [-> ->].
  exact IHhex.
Qed.

Lemma be_bytes_range (n : nat) (x : Z) :
  Forall (fun b => 0 <= b < 256) (SHA256.be_bytes n x).
Proof.
  induction n as [|n IH]; cbn [SHA256.be_bytes]; constructor; [|exact IH].
  change 255 with (Z.ones 8). rewrite Z.land_ones by lia.
  apply Z.mod_pos_bound. lia.
Qed.

Lemma digest_format (msg : bytes) :
  length (SHA256.digest msg) = 32%nat
  /\ Forall (fun b => 0 <= b < 256) (SHA256.digest msg).
Proof.
  unfold SHA256.digest. cbv zeta.
  generalize (SHA256.blocks
                (length (SHA256.words (length (SHA256.pad (List.map Z_of_byte msg)))
                                      (SHA256.pad (List.map Z_of_byte msg))))
                SHA256.init
                (SHA256.words (length (SHA256.pad (List.map Z_of_byte msg)))
                              (SHA256.pad (List.map Z_of_byte msg)))) as h.
  intros h. split; [reflexivity|].
  cbn [flat_map]. repeat (apply Forall_app; split; [apply be_bytes_range|]). constructor.
Qed.

(** [hexdigest()] is 64 characters, each a digit or a letter from a to f. *)
Lemma hexdigest_format (msg : bytes) :
  String.length (SHA256.hexdigest msg) = 64%nat
  /\ string_forall is_hex_char (SHA256.hexdigest msg) = true.
Proof.
  unfold SHA256.hexdigest. destruct (digest_format msg) as [Hlen Hrange].
  destruct (hex_format _ Hrange) as [Hl Hh]. rewrite Hl, Hlen. split; [reflexivity | exact Hh].
Qed.

Lemma hexdigest_not_zero (msg : bytes) : SHA256.hexdigest msg <> "0".
Proof.
  intros H. pose proof (proj1 (hexdigest_format msg)) as Hlen. rewrite H in Hlen.
  discriminate Hlen.
Qed.

(** X13. [get_image_hash] returns the bytes it read unchanged, with a
    content hash of 64 characters, each a digit or a letter from a to f. *)
Theorem get_image_hash_format (image : bytes) :
  snd (get_image_hash image) = image
  /\ String.length (fst (get_image_hash image)) = 64%nat
  /\ string_forall is_hex_char (fst (get_image_hash image)) = true.
Proof.
  unfold get_image_hash. cbn [fst snd]. split; [reflexivity | apply hexdigest_format].
Qed.

(** X14. Every hash [compute_hash] returns, in either application, is 64
    characters from 0-9 and a-f; the hash [__init__] stores is such a
    string, so it is never the "0" that the genesis record carries as
    [previous_hash]. *)
Theorem compute_hash_format :
  (forall b : App3.Block,
      String.length (App3.compute_hash b) = 64%nat
      /\ string_forall is_hex_char (App3.compute_hash b) = true)
  /\ (forall b : App2.Block,
         String.length (App2.compute_hash b) = 64%nat
         /\ string_forall is_hex_char (App2.compute_hash b) = true)
  /\ (forall i t a o pk sg md ph : json,
         exists h, App3.hash (App3.Block_init i t a o pk sg md ph) = JStr h
                   /\ String.length h = 64%nat /\ h <> "0")
  /\ (forall i t a o md ph : json,
         exists h, App2.hash (App2.Block_init i t a o md ph) = JStr h
                   /\ String.length h = 64%nat /\ h <> "0").
Proof.
  repeat apply conj.
  - intros b. apply hexdigest_format.
  - intros b. apply hexdigest_format.
  - intros. eexists. split; [reflexivity|]. split; [apply hexdigest_format|].
    apply hexdigest_not_zero.
  - intros. eexists. split; [reflexivity|]. split; [apply hexdigest_format|].
    apply hexdigest_not_zero.
Qed.

(** ** Counting and sorting *)

Lemma counter_bump_sum (k : json) (d : counter) :
  count_sum (counter_set k (counter_get k d 0 + 1) d) = count_sum d + 1.
Proof.
  induction d as [|[k' n] d IH]; cbn [counter_set counter_get count_sum fold_right snd].
  - lia.
  - destruct (py_eq k' k); cbn [count_sum fold_right snd].
    + lia.
    + fold (count_sum (counter_set k (counter_get k d 0 + 1) d)). fold (count_sum d).
      rewrite IH. lia.
Qed.

Lemma counter_bump_positive (k : json) (d : counter) :
  Forall (fun kv => 1 <= snd kv) d ->
  Forall (fun kv => 1 <= snd kv) (counter_set k (counter_get k d 0 + 1) d).
Proof.
  induction 1 as [|[k' n] d Hn Hd IH]; cbn [counter_set counter_get].
  - repeat constructor. cbn. lia.
  - cbn [snd] in Hn. destruct (py_eq k' k).
    + constructor; [cbn; lia | exact Hd].
    + constructor; [exact Hn | exact IH].
Qed.

Lemma counter_set_keys (k : json) (n : Z) (d : counter) :
  List.map fst (counter_set k n d) = set_add k (List.map fst d).
Proof.
  induction d as [|[k' m] d IH]; cbn [counter_set List.map set_add fst]; [reflexivity|].
  destruct (py_eq k' k); cbn [List.map fst]; [reflexivity|]. rewrite IH. reflexivity.
Qed.

Lemma insert_desc_perm (x : json * Z) (l : counter) : insert_desc x l ≡ₚ x :: l.
Proof.
  induction l as [|y l IH]; cbn [insert_desc]; [reflexivity|].
  destruct (snd y <? snd x); [reflexivity|]. rewrite IH. apply Permutation_swap.
Qed.

Lemma sorted_desc_perm (l : counter) : sorted_desc l ≡ₚ l.
Proof.
  unfold sorted_desc.
  assert (forall acc, fold_left (fun acc x => insert_desc x acc) l acc ≡ₚ acc ++ l) as H.
  { induction l as [|x l IH]; intros acc; cbn [fold_left].
    - rewrite app_nil_r. reflexivity.
    - rewrite IH, insert_desc_perm. cbn [app]. apply Permutation_middle. }
  apply (H []).
Qed.

Lemma count_sum_perm (l l' : counter) : l ≡ₚ l' -> count_sum l = count_sum l'.
Proof.
  induction 1 as [|x l l' _ IH|x y l|l l' l'' _ IH1 _ IH2];
    unfold count_sum in *; cbn [fold_right] in *; lia.
Qed.

Lemma insert_desc_sorted (x : json * Z) (l : counter) :
  StronglySorted count_ge l -> StronglySorted count_ge (insert_desc x l).
Proof.
  induction 1 as [|y l Hl IH Hy]; cbn [insert_desc].
  - repeat constructor.
  - destruct (Z.ltb_spec (snd y) (snd x)) as [Hlt | Hge].
    + constructor; [constructor; assumption|].
      constructor; [unfold count_ge; lia|].
      eapply Forall_impl; [exact Hy|]. unfold count_ge. intros z Hz. lia.
    + constructor; [exact IH|].
      rewrite (insert_desc_perm x l). constructor; [exact Hge | exact Hy].
Qed.

(** A row goes behind the rows with the same count. *)
Lemma insert_desc_rows_with (c : Z) (x : json * Z) (l : counter) :
  StronglySorted count_ge l ->
  rows_with c (insert_desc x l) = rows_with c l ++ (if snd x =? c then [x] else []).
Proof.
  unfold rows_with. induction 1 as [|y l Hl IH Hy]; cbn [insert_desc List.filter].
  - destruct (snd x =? c); reflexivity.
  - destruct (Z.ltb_spec (snd y) (snd x)) as [Hlt | Hge]; cbn [List.filter].
    + destruct (Z.eqb_spec (snd x) c) as [Hx | Hx].
      * assert (List.filter (fun kv => snd kv =? c) (y :: l) = []) as Hnone.
        { assert (Forall (fun z => (snd z =? c) = false) (y :: l)) as Hall.
          { constructor; [apply Z.eqb_neq; lia|].
            eapply Forall_impl; [exact Hy|]. unfold count_ge. intros z Hz.
            apply Z.eqb_neq. lia. }
          clear -Hall. induction Hall as [|z zs Hz _ IHz]; [reflexivity|].
          cbn [List.filter]. rewrite Hz. exact IHz. }
        cbn [List.filter] in Hnone. rewrite Hnone. reflexivity.
      * rewrite app_nil_r. reflexivity.
    + rewrite IH. destruct (snd y =? c); reflexivity.
Qed.

Lemma sorted_desc_fold (l acc : counter) :
  StronglySorted count_ge acc ->
  StronglySorted count_ge (fold_left (fun acc x => insert_desc x acc) l acc)
  /\ forall c, rows_with c (fold_left (fun acc x => insert_desc x acc) l acc)
               = rows_with c acc ++ rows_with c l.
Proof.
  revert acc. induction l as [|x l IH]; intros acc Hacc; cbn [fold_left].
  - split; [exact Hacc|]. intros c. unfold rows_with. cbn [List.filter].
    rewrite app_nil_r. reflexivity.
  - destruct (IH (insert_desc x acc) (insert_desc_sorted x acc Hacc)) as [Hs Hr].
    split; [exact Hs|]. intros c. rewrite Hr, insert_desc_rows_with by exact Hacc.
    unfold rows_with. cbn [List.filter]. rewrite <- app_assoc.
    destruct (snd x =? c); reflexivity.
Qed.

(** X15. The leaderboard is the list of its rows reordered: the counts
    never increase down the list, no row is lost or added, and rows with
    the same count stay in the order they had. *)
Theorem leaderboard_order (items : counter) :
  StronglySorted count_ge (sorted_desc items)
  /\ sorted_desc items ≡ₚ items
  /\ forall c : Z, rows_with c (sorted_desc items) = rows_with c items.
Proof.
  destruct (sorted_desc_fold items [] (SSorted_nil _)) as [Hs Hr].
  split; [exact Hs|]. split; [apply sorted_desc_perm|]. exact Hr.
Qed.

(** ** The statistics of app2.py *)

Section App2Stats.
Import App2 App2Tabs.

Lemma owner_counts_loop_spec (blocks : list Block) (d d' : counter) :
  owner_counts_loop blocks d = Ok d' ->
  Forall (fun kv => 1 <= snd kv) d ->
  count_sum d' = count_sum d + Z.of_nat (length blocks)
  /\ Forall (fun kv => 1 <= snd kv) d'
  /\ unique_owners_loop blocks (List.map fst d) = Ok (List.map fst d').
Proof.
  revert d. induction blocks as [|b blocks IH]; intros d Hloop Hpos;
    cbn [owner_counts_loop unique_owners_loop] in *.
  - apply Ok_inj in Hloop. subst d'. cbn [length]. split; [lia|]. split; [exact Hpos | reflexivity].
  - destruct (hashable (owner b)); [|discriminate Hloop].
    apply IH in Hloop as (Hsum & Hall & Huniq); [|apply counter_bump_positive, Hpos].
    rewrite counter_bump_sum in Hsum. rewrite counter_set_keys in Huniq.
    cbn [length]. split; [lia|]. split; [exact Hall | exact Huniq].
Qed.

Lemma owner_counts_loop_Ok (blocks : list Block) (d : counter) :
  Forall (fun b => hashable (owner b) = true) blocks ->
  exists d', owner_counts_loop blocks d = Ok d'.
Proof.
  intros H. revert d.
  induction H as [|b blocks Hb _ IH]; intros d; cbn [owner_counts_loop]; [eauto|].
  rewrite Hb. apply IH.
Qed.

Lemma owner_counts_loop_Raise (blocks : list Block) (d : counter) :
  Exists (fun b => hashable (owner b) = false) blocks ->
  owner_counts_loop blocks d = Raise TypeError.
Proof.
  revert d. induction blocks as [|b blocks IH]; intros d H; [inversion H|].
  cbn [owner_counts_loop]. destruct (hashable (owner b)) eqn:Hb; [|reflexivity].
  apply IH. inversion H as [? ? Hbad|? ? Hrest]; subst; [congruence | exact Hrest].
Qed.

Lemma unique_owners_loop_Raise (blocks : list Block) (acc : list json) :
  Exists (fun b => hashable (owner b) = false) blocks ->
  unique_owners_loop blocks acc = Raise TypeError.
Proof.
  revert acc. induction blocks as [|b blocks IH]; intros acc H; [inversion H|].
  cbn [unique_owners_loop]. destruct (hashable (owner b)) eqn:Hb; [|reflexivity].
  apply IH. inversion H as [? ? Hbad|? ? Hrest]; subst; [congruence | exact Hrest].
Qed.

Lemma stats_tab_Ok (self : Blockchain) (total : Z) (n_unique : nat) (leaderboard : counter) :
  stats_tab self = Ok (total, n_unique, leaderboard) ->
  exists counts,
    owner_counts self = Ok counts
    /\ unique_owners self = Ok (List.map fst counts)
    /\ total = total_nfts self /\ n_unique = length counts
    /\ leaderboard = sorted_desc counts.
Proof.
  unfold stats_tab. intros H.
  apply bind_Ok_inv in H as (unique & Hunique & H).
  apply bind_Ok_inv in H as (counts & Hcounts & H).
  apply Ok_inj in H. injection H as <- <- <-.
  exists counts. split; [exact Hcounts|].
  unfold owner_counts in Hcounts.
  apply owner_counts_loop_spec in Hcounts as (_ & _ & Huniq); [|constructor].
  cbn [List.map] in Huniq. unfold unique_owners in *. rewrite Huniq in Hunique.
  apply Ok_inj in Hunique. subst unique. rewrite length_map. repeat split. exact Huniq.
Qed.

End App2Stats.

(** X16. When the "Statistics" tab does not raise: the counts of the
    leaderboard add up to the number of records after the first, which is
    the total shown whenever the chain is not empty; every count is at
    least 1; and the number of unique owners shown is the number of rows.
    On a chain without records the total shown is -1. *)
Theorem stats_tab_totals (self : App2.Blockchain) (total : Z) (n_unique : nat)
    (leaderboard : counter) :
  App2Tabs.stats_tab self = Ok (total, n_unique, leaderboard) ->
  count_sum leaderboard = Z.of_nat (length (skipn 1 (App2.chain self)))
  /\ (App2.chain self <> [] -> count_sum leaderboard = total)
  /\ (App2.chain self = [] -> total = -1 /\ leaderboard = [])
  /\ Forall (fun row => 1 <= snd row) leaderboard
  /\ n_unique = length leaderboard.
Proof.
  intros H. apply stats_tab_Ok in H as (counts & Hcounts & _ & -> & -> & ->).
  unfold App2Tabs.owner_counts in Hcounts.
  pose proof (owner_counts_loop_spec _ _ _ Hcounts (List.Forall_nil _)) as (Hsum & Hpos & _).
  pose proof (sorted_desc_perm counts) as Hperm.
  rewrite (count_sum_perm _ _ Hperm).
  change (count_sum []) with 0 in Hsum.
  repeat apply conj.
  - lia.
  - intros Hne. unfold App2Tabs.total_nfts. rewrite Hsum.
    destruct (App2.chain self) as [|g rest]; [contradiction|].
    change (skipn 1 (g :: rest)) with rest. rewrite length_cons. lia.
  - intros Hnil. unfold App2Tabs.total_nfts. rewrite Hnil in *. cbn in Hcounts.
    apply Ok_inj in Hcounts. subst counts. split; reflexivity.
  - rewrite Hperm. exact Hpos.
  - rewrite Hperm. reflexivity.
Qed.

Lemma stats_tab_totals_witness :
  count_sum [(JStr "alice", 1)] = Z.of_nat (length (skipn 1 (App2.chain sample_chain2)))
  /\ (App2.chain sample_chain2 <> [] -> count_sum [(JStr "alice", 1)] = 1)
  /\ (App2.chain sample_chain2 = [] -> 1 = -1 /\ [(JStr "alice", 1)] = [])
  /\ Forall (fun row => 1 <= snd row) [(JStr "alice", 1)]
  /\ 1%nat = length [(JStr "alice", 1)].
Proof.
  apply (stats_tab_totals sample_chain2 1 1%nat [(JStr "alice", 1)]). reflexivity.
Defined.

(** X17. The "Statistics" tab raises exactly when some record after the
    first has a list or a dictionary as its owner, and then it raises
    [TypeError]; the first record is never looked at. *)
Theorem stats_tab_raises_iff (self : App2.Blockchain) :
  (Exists (fun b => hashable (App2.owner b) = false) (skipn 1 (App2.chain self))
   -> App2Tabs.stats_tab self = Raise TypeError)
  /\ (Forall (fun b => hashable (App2.owner b) = true) (skipn 1 (App2.chain self))
      -> exists r, App2Tabs.stats_tab self = Ok r).
Proof.
  split.
  - intros H. unfold App2Tabs.stats_tab, App2Tabs.unique_owners.
    rewrite (unique_owners_loop_Raise _ _ H). reflexivity.
  - intros H. destruct (owner_counts_loop_Ok _ [] H) as [counts Hcounts].
    pose proof (owner_counts_loop_spec _ _ _ Hcounts (List.Forall_nil _)) as (_ & _ & Huniq).
    unfold App2Tabs.stats_tab, App2Tabs.unique_owners, App2Tabs.owner_counts.
    cbn [List.map] in Huniq. rewrite Huniq, bind_Ok, Hcounts, bind_Ok. eauto.
Qed.

Lemma stats_tab_raises_iff_witness :
  App2Tabs.stats_tab
    (App2.mkBlockchain [sample_genesis2; App2.set_hash sample_alice2 JNull;
                        App2.mkBlock (JInt 2) JNull JNull (JList []) JNull JNull JNull JNull])
    = Raise TypeError
  /\ exists r, App2Tabs.stats_tab sample_chain2 = Ok r.
Proof.
  split.
  - apply (proj1 (stats_tab_raises_iff _)). cbn [App2.chain skipn].
    right. left. reflexivity.
  - apply (proj2 (stats_tab_raises_iff sample_chain2)). cbn [App2.chain skipn sample_chain2].
    repeat constructor.
Defined.

(** ** The "Verify NFT" and "Mint NFT" tabs of app2.py *)

Section App2TabsFacts.
Import App2 App2Tabs.

Lemma matches_snoc (l : list Block) (b : Block) (h : string) :
  matches {| chain := l ++ [b] |} h
  = matches {| chain := l |} h ++ (if py_eq (art_hash b) (JStr h) then [b] else []).
Proof.
  unfold matches. cbn [chain]. rewrite List.filter_app. cbn [List.filter].
  destruct (py_eq (art_hash b) (JStr h)); reflexivity.
Qed.

Lemma matches_art_hash (self : Blockchain) (h : string) :
  Forall (fun b => art_hash b = JStr h) (matches self h).
Proof.
  apply List.Forall_forall. intros b Hb. unfold matches in Hb.
  apply List.filter_In in Hb as [_ Hb]. apply py_eq_JStr_r, Hb.
Qed.

Lemma mint_tab_minted (png_thumbnail : bytes -> result bytes)
    (blockchain blockchain' : Blockchain) (file file' : option json) (now : string)
    (submitted : bool) (uploaded_file : option bytes)
    (owner title description category : string) (new_block : Block) :
  mint_tab png_thumbnail blockchain file now submitted uploaded_file
           owner title description category
    = Ok (blockchain', file', Some new_block) ->
  owner <> ""
  /\ exists image thumbnail,
       uploaded_file = Some image
       /\ create_thumbnail png_thumbnail image = Ok thumbnail
       /\ add_block blockchain now (JStr (SHA256.hexdigest image)) (JStr owner)
            (JObj [ ("title", JStr title); ("description", JStr description);
                    ("category", JStr category); ("thumbnail", JStr thumbnail) ])
          = Ok (new_block, blockchain')
       /\ file' = save blockchain'.
Proof.
  unfold mint_tab. destruct submitted; [|discriminate].
  destruct uploaded_file as [image|]; [|discriminate].
  unfold truthy. destruct (String.eqb_spec owner "") as [->|Hne]; cbn [negb]; [discriminate|].
  unfold get_image_hash. cbv zeta.
  destruct (create_thumbnail png_thumbnail image) as [thumbnail|e] eqn:Hthumb;
    [|discriminate].
  rewrite bind_Ok.
  destruct (add_block blockchain now (JStr (SHA256.hexdigest image)) (JStr owner)
              (JObj [ ("title", JStr title); ("description", JStr description);
                      ("category", JStr category); ("thumbnail", JStr thumbnail) ]))
    as [[nb bc]|e] eqn:Hadd; [|discriminate].
  rewrite bind_Ok. intros H. apply Ok_inj in H. injection H as <- <- <-.
  split; [exact Hne|]. exists image, thumbnail.
  split; [reflexivity|]. split; [exact Hthumb|]. split; [exact Hadd | reflexivity].
Qed.

Lemma match_lines_objects (blocks : list Block) :
  Forall (fun b => exists d, metadata b = JObj d) blocks ->
  exists lines, match_lines blocks = Ok lines.
Proof.
  induction 1 as [|b blocks [d Hd] _ [lines IH]]; cbn [match_lines]; [eauto|].
  unfold match_line. rewrite Hd. destruct (get_method_obj d "title" JNull) as [v ->].
  rewrite !bind_Ok, IH, bind_Ok. eauto.
Qed.

Lemma stats_tab_hashable (self : Blockchain) :
  Forall (fun b => hashable (owner b) = true) (skipn 1 (chain self)) ->
  exists r, stats_tab self = Ok r.
Proof.
  intros H. destruct (owner_counts_loop_Ok _ [] H) as [counts Hcounts].
  pose proof (owner_counts_loop_spec _ _ _ Hcounts (List.Forall_nil _)) as (_ & _ & Huniq).
  unfold stats_tab, unique_owners, owner_counts.
  cbn [List.map] in Huniq. rewrite Huniq, bind_Ok, Hcounts, bind_Ok. eauto.
Qed.

End App2TabsFacts.

Section App2Minted.
Import App2 App2Tabs.

Lemma mint_tab_nothing (png_thumbnail : bytes -> result bytes)
    (blockchain blockchain' : Blockchain) (file file' : option json) (now : string)
    (submitted : bool) (uploaded_file : option bytes)
    (owner title description category : string) :
  mint_tab png_thumbnail blockchain file now submitted uploaded_file
           owner title description category
    = Ok (blockchain', file', None) ->
  blockchain' = blockchain /\ file' = file.
Proof.
  unfold mint_tab. intros Hmint.
  destruct submitted; [|apply Ok_inj in Hmint; split; congruence].
  destruct uploaded_file as [image|]; [|apply Ok_inj in Hmint; split; congruence].
  destruct (truthy owner); [|apply Ok_inj in Hmint; split; congruence].
  exfalso. unfold get_image_hash in Hmint. cbv zeta in Hmint.
  destruct (create_thumbnail png_thumbnail image); [|discriminate].
  rewrite bind_Ok in Hmint.
  destruct (add_block _ _ _ _ _) as [[? ?]|]; [|discriminate].
  rewrite bind_Ok in Hmint. apply Ok_inj in Hmint. discriminate.
Qed.

(** What the application's own chains look like. *)
Lemma minted_shape (png_thumbnail : bytes -> result bytes) (self : Blockchain) :
  minted png_thumbnail self ->
  chain self <> []
  /\ Forall (fun b => (exists o, owner b = JStr o) /\ (exists d, metadata b = JObj d))
            (chain self).
Proof.
  induction 1 as [now|bc file now submitted up owner title description category
                      bc' file' nb _ [IHne IHall] Hmint].
  - split; [discriminate|]. repeat constructor; eauto.
  - destruct nb as [nb|].
    + apply mint_tab_minted in Hmint as (_ & image & thumbnail & _ & _ & Hadd & _).
      apply add_block_inv_2 in Hadd as (old_last & _ & -> & ->).
      split; [intros E; apply app_eq_nil in E as [_ E]; discriminate|].
      apply Forall_app. split; [exact IHall|]. repeat constructor; eauto.
    + apply mint_tab_nothing in Hmint as [-> _]. split; assumption.
Qed.

End App2Minted.

(** X18. After [add_block], the records the "Verify" tab finds for a
    content hash are those it found before, in the same order, followed by
    the new record when the new record has that content hash; and every
    record found has the content hash that was asked for. *)
Theorem matches_after_add_block (self self' : App2.Blockchain) (now : string)
    (art_hash owner metadata : json) (new_block : App2.Block) (h : string) :
  App2.add_block self now art_hash owner metadata = Ok (new_block, self') ->
  App2Tabs.matches self' h
  = App2Tabs.matches self h ++ (if py_eq art_hash (JStr h) then [new_block] else [])
  /\ Forall (fun b => App2.art_hash b = JStr h) (App2Tabs.matches self' h).
Proof.
  intros Hadd. split; [|apply matches_art_hash].
  apply add_block_inv_2 in Hadd as (old_last & _ & -> & Hchain).
  destruct self as [l], self' as [l']. cbn [App2.chain] in Hchain. subst l'.
  apply matches_snoc.
Qed.

Lemma matches_after_add_block_witness :
  App2Tabs.matches sample_chain2 "abc123"
  = App2Tabs.matches sample_fresh2 "abc123"
    ++ (if py_eq (JStr "abc123") (JStr "abc123") then [sample_alice2] else [])
  /\ Forall (fun b => App2.art_hash b = JStr "abc123")
            (App2Tabs.matches sample_chain2 "abc123").
Proof.
  apply (matches_after_add_block sample_fresh2 sample_chain2 sample_t1
           (JStr "abc123") (JStr "alice") sample_title sample_alice2 "abc123").
  reflexivity.
Defined.

(** X19. The genesis record is never a match for an uploaded file: its
    content hash "0" is not a digest.  On a freshly created chain the
    "Verify" tab answers that the artwork does not exist, whatever file is
    uploaded. *)
Theorem verify_tab_never_matches_genesis (now : string) (image : bytes) :
  (forall self : App2.Blockchain,
      Forall (fun b => App2.art_hash b <> JStr "0")
             (App2Tabs.matches self (fst (get_image_hash image))))
  /\ App2Tabs.verify_tab (App2.Blockchain_init now) (Some image) = Ok (Some None).
Proof.
  split.
  - intros self. eapply Forall_impl; [apply matches_art_hash|].
    intros b Hb E. rewrite Hb in E. apply JStr_inj in E.
    exact (hexdigest_not_zero image E).
  - unfold App2Tabs.verify_tab, get_image_hash, App2Tabs.matches.
    cbn [App2.chain App2.Blockchain_init App2.create_genesis_block app List.filter
         App2.art_hash App2.Block_init].
    assert (py_eq (JStr "0") (JStr (SHA256.hexdigest image)) = false) as ->; [|reflexivity].
    apply not_true_is_false. intros E. apply py_eq_JStr_r, JStr_inj in E.
    symmetry in E. exact (hexdigest_not_zero image E).
Qed.

(** X20. A mint that goes through appends exactly one record, with the
    next index, the owner typed in (never empty) and the digest of the
    uploaded file as content hash; the file it saves loads back as the
    chain in memory; and the "Verify" tab no longer answers that the
    uploaded artwork does not exist. *)
Theorem mint_tab_effect (png_thumbnail : bytes -> result bytes)
    (blockchain blockchain' : App2.Blockchain) (file file' : option json) (now now' : string)
    (submitted : bool) (uploaded_file : option bytes)
    (owner title description category : string) (new_block : App2.Block) :
  App2Tabs.mint_tab png_thumbnail blockchain file now submitted uploaded_file
                    owner title description category
    = Ok (blockchain', file', Some new_block) ->
  App2.chain blockchain' = App2.chain blockchain ++ [new_block]
  /\ App2.index new_block = JInt (Z.of_nat (length (App2.chain blockchain)))
  /\ App2.owner new_block = JStr owner /\ owner <> ""
  /\ (exists image, uploaded_file = Some image
                    /\ App2.art_hash new_block = JStr (fst (get_image_hash image)))
  /\ App2.load file' now' = Ok blockchain'
  /\ App2Tabs.verify_tab blockchain' uploaded_file <> Ok (Some None).
Proof.
  intros Hmint.
  apply mint_tab_minted in Hmint as (Hne & image & thumbnail & -> & _ & Hadd & ->).
  pose proof (add_block_inv_2 _ _ _ _ _ _ _ Hadd) as (old_last & _ & Hnew & Hchain).
  repeat apply conj.
  - exact Hchain.
  - subst new_block. reflexivity.
  - subst new_block. reflexivity.
  - exact Hne.
  - exists image. split; [reflexivity|]. subst new_block. reflexivity.
  - destruct blockchain' as [l']. unfold App2.save, App2.to_dict, App2.load, iterate.
    cbn [App2.chain]. rewrite bind_Ok, load_loop_to_dict_2. reflexivity.
  - unfold App2Tabs.verify_tab, get_image_hash. cbv zeta.
    destruct blockchain as [l], blockchain' as [l']. cbn [App2.chain] in Hchain. subst l'.
    rewrite matches_snoc.
    assert (py_eq (App2.art_hash new_block) (JStr (SHA256.hexdigest image)) = true) as ->.
    { subst new_block. apply py_eq_JStr_r. reflexivity. }
    destruct (App2Tabs.matches {| App2.chain := l |} (SHA256.hexdigest image)) as [|m ms];
      cbn [app].
    + destruct (App2Tabs.match_lines [new_block]); discriminate.
    + destruct (App2Tabs.match_lines (m :: ms ++ [new_block])); discriminate.
Qed.

(** X21. On the chains the application itself produces, the constructor's
    and every chain a mint leaves, the "Statistics" and "Verify" tabs never
    raise, and the total shown is not negative. *)
Theorem minted_chain_tabs_never_raise (png_thumbnail : bytes -> result bytes)
    (self : App2.Blockchain) (file_to_verify : option bytes) :
  App2Tabs.minted png_thumbnail self ->
  (exists r, App2Tabs.stats_tab self = Ok r)
  /\ (exists r, App2Tabs.verify_tab self file_to_verify = Ok r)
  /\ 0 <= App2Tabs.total_nfts self.
Proof.
  intros Hminted. apply minted_shape in Hminted as [Hne Hall].
  repeat apply conj.
  - apply stats_tab_hashable. rewrite List.Forall_forall in Hall |- *.
    intros b Hb. destruct (Hall b) as [[o Ho] _].
    + destruct (App2.chain self); [destruct Hb | right; exact Hb].
    + rewrite Ho. reflexivity.
  - unfold App2Tabs.verify_tab. destruct file_to_verify as [image|]; [|eauto].
    unfold get_image_hash. cbv zeta.
    destruct (App2Tabs.matches self (SHA256.hexdigest image)) as [|m ms] eqn:Hm; [eauto|].
    destruct (match_lines_objects (m :: ms)) as [lines Hlines].
    { rewrite <- Hm. rewrite List.Forall_forall in Hall |- *. intros b Hb.
      unfold App2Tabs.matches in Hb. apply List.filter_In in Hb as [Hb _].
      apply Hall in Hb as [_ Hd]. exact Hd. }
    rewrite Hlines, bind_Ok. eauto.
  - unfold App2Tabs.total_nfts. destruct (App2.chain self); [contradiction|].
    rewrite length_cons. lia.
Qed.

Lemma sample_mint :
  App2Tabs.mint_tab sample_png sample_fresh2 None sample_t1 true (Some sample_image)
                    "alice" "Sunset" "" "Art"
  = Ok (sample_minted_chain2, App2.save sample_minted_chain2, Some sample_minted_block2).
Proof. reflexivity. Qed.

Lemma mint_tab_effect_witness :
  App2.chain sample_minted_chain2 = App2.chain sample_fresh2 ++ [sample_minted_block2]
  /\ App2.index sample_minted_block2 = JInt (Z.of_nat (length (App2.chain sample_fresh2)))
  /\ App2.owner sample_minted_block2 = JStr "alice" /\ "alice" <> ""
  /\ (exists image, Some sample_image = Some image
                    /\ App2.art_hash sample_minted_block2
                       = JStr (fst (get_image_hash image)))
  /\ App2.load (App2.save sample_minted_chain2) sample_t0 = Ok sample_minted_chain2
  /\ App2Tabs.verify_tab sample_minted_chain2 (Some sample_image) <> Ok (Some None).
Proof.
  apply (mint_tab_effect sample_png sample_fresh2 sample_minted_chain2 None
           (App2.save sample_minted_chain2) sample_t1 sample_t0 true (Some sample_image)
           "alice" "Sunset" "" "Art" sample_minted_block2).
  exact sample_mint.
Defined.

Lemma minted_chain_tabs_never_raise_witness :
  (exists r, App2Tabs.stats_tab sample_minted_chain2 = Ok r)
  /\ (exists r, App2Tabs.verify_tab sample_minted_chain2 (Some sample_image) = Ok r)
  /\ 0 <= App2Tabs.total_nfts sample_minted_chain2.
Proof.
  apply (minted_chain_tabs_never_raise sample_png sample_minted_chain2 (Some sample_image)).
  apply (App2Tabs.minted_mint sample_png sample_fresh2 None sample_t1 true (Some sample_image)
           "alice" "Sunset" "" "Art" sample_minted_chain2 (App2.save sample_minted_chain2)
           (Some sample_minted_block2)).
  - apply App2Tabs.minted_init.
  - exact sample_mint.
Defined.

(** ** The text [b64encode] produces *)

Section Base64Alphabet.
Import Base64.

Lemma table_b2a_is_char (s : Z) :
  0 <= s < 64 -> is_base64_char (ascii_of_byte (byte_of_Z (table_b2a s))) = true.
Proof.
  apply (Z_range_forallb 64
           (fun s => is_base64_char (ascii_of_byte (byte_of_Z (table_b2a s))))).
  vm_compute. reflexivity.
Qed.

Lemma b2a_alphabet (n : nat) (bs : list Z) :
  (length bs <= n)%nat -> Forall (fun b => 0 <= b < 256) bs ->
  Forall (fun c => is_base64_char (ascii_of_byte (byte_of_Z c)) = true) (b2a bs)
  /\ length (b2a bs) = (4 * ((length bs + 2) / 3))%nat.
Proof.
  revert bs. induction n as [|n IH]; intros bs Hlen Hbs.
  - destruct bs; [split; [constructor | reflexivity] | cbn in Hlen; lia].
  - destruct bs as [|a [|b [|c rest]]].
    + split; [constructor | reflexivity].
    + inversion Hbs as [|? ? Ha _]; subst.
      destruct (split_ab_facts a 0 Ha ltac:(lia)) as (H0 & H1 & _).
      cbv zeta in *. rewrite Z.shiftr_0_l, Z.lor_0_r in H1.
      cbn [b2a]. split; [|reflexivity].
      repeat (constructor; [first [apply table_b2a_is_char; assumption | reflexivity]|]).
      constructor.
    + inversion Hbs as [|? ? Ha Hbs']; subst. inversion Hbs' as [|? ? Hb _]; subst.
      destruct (split_ab_facts a b Ha Hb) as (H0 & H1 & _).
      destruct (split_bc_facts b 0 Hb ltac:(lia)) as (H2 & _).
      cbv zeta in *. rewrite Z.shiftr_0_l, Z.lor_0_r in H2.
      cbn [b2a]. split; [|reflexivity].
      repeat (constructor; [first [apply table_b2a_is_char; assumption | reflexivity]|]).
      constructor.
    + inversion Hbs as [|? ? Ha Hbs']; subst. inversion Hbs' as [|? ? Hb Hbs'']; subst.
      inversion Hbs'' as [|? ? Hc Hrest]; subst.
      destruct (split_ab_facts a b Ha Hb) as (H0 & H1 & _).
      destruct (split_bc_facts b c Hb Hc) as (H2 & H3 & _).
      cbv zeta in *. cbn [b2a].
      destruct (IH rest ltac:(cbn in Hlen; lia) Hrest) as [IHall IHlen].
      split.
      * repeat (constructor; [apply table_b2a_is_char; assumption|]). exact IHall.
      * cbn [length]. rewrite IHlen.
        replace (S (S (S (length rest))) + 2)%nat with (1 * 3 + (length rest + 2))%nat by lia.
        rewrite Nat.div_add_l by lia. lia.
Qed.

Lemma string_forall_of_list (p : ascii -> bool) (l : list ascii) :
  Forall (fun c => p c = true) l -> string_forall p (string_of_list_ascii l) = true.
Proof.
  induction 1 as [|c l Hc _ IH]; [reflexivity|].
  cbn [string_of_list_ascii string_forall]. rewrite Hc, IH. reflexivity.
Qed.

Lemma string_length_of_list (l : list ascii) :
  String.length (string_of_list_ascii l) = length l.
Proof. induction l as [|c l IH]; [reflexivity|]. cbn. rewrite IH. reflexivity. Qed.

(** The text of [b64encode(bs).decode()]: alphabet and pad characters only,
    four for every three bytes started. *)
Lemma b64encode_text (bs : bytes) :
  string_forall is_base64_char (decode_ascii (b64encode bs)) = true
  /\ String.length (decode_ascii (b64encode bs)) = (4 * ((length bs + 2) / 3))%nat.
Proof.
  unfold decode_ascii, b64encode.
  assert (Forall (fun b => 0 <= b < 256) (List.map Z_of_byte bs)) as Hzs.
  { apply List.Forall_forall. intros z Hz. apply in_map_iff in Hz as (b & <- & _).
    apply Z_of_byte_range. }
  destruct (b2a_alphabet _ _ (Nat.le_refl _) Hzs) as [Hall Hlen].
  rewrite length_map in Hlen. split.
  - apply string_forall_of_list. rewrite !List.map_map.
    clear Hlen. induction Hall as [|c cs Hc _ IH]; constructor; assumption.
  - rewrite string_length_of_list, !length_map. exact Hlen.
Qed.

(** Characters outside the alphabet are passed over, wherever they are. *)
Lemma a2b_junk (pre post : list Z) (c : Z) (q : nat) (left : Z) (pads : nat) (out : list Z) :
  table_a2b c = None -> c <> pad_char ->
  a2b (pre ++ c :: post) q left pads out = a2b (pre ++ post) q left pads out.
Proof.
  intros Hc Hpad. revert q left pads out.
  induction pre as [|x pre IH]; intros q left pads out; cbn [app a2b].
  - apply Z.eqb_neq in Hpad. rewrite Hpad, Hc. reflexivity.
  - destruct (x =? pad_char).
    + destruct (2 <=? q)%nat; [|apply IH].
      destruct (4 <=? q + S pads)%nat; [reflexivity | apply IH].
    + destruct (table_a2b x); [|apply IH].
      destruct q as [|[|[|q]]]; apply IH.
Qed.

End Base64Alphabet.

Lemma list_ascii_of_append (s t : string) :
  list_ascii_of_string (s +:+ t) = list_ascii_of_string s ++ list_ascii_of_string t.
Proof.
  induction s as [|c s IH]; [reflexivity|].
  rewrite append_String. cbn [list_ascii_of_string app]. rewrite IH. reflexivity.
Qed.

(** X22. The thumbnail text [create_thumbnail] returns is made of base64
    characters only (letters, digits, [+], [/], [=]), four for every three
    bytes of the PNG started, and decoding it gives back the PNG bytes the
    imaging library wrote. *)
Theorem create_thumbnail_is_base64 (png_thumbnail : bytes -> result bytes)
    (image_bytes : bytes) (thumbnail : string) :
  create_thumbnail png_thumbnail image_bytes = Ok thumbnail ->
  exists buffered,
    png_thumbnail image_bytes = Ok buffered
    /\ string_forall is_base64_char thumbnail = true
    /\ String.length thumbnail = (4 * ((length buffered + 2) / 3))%nat
    /\ Base64.b64decode thumbnail = Ok buffered.
Proof.
  unfold create_thumbnail. intros H.
  destruct (png_thumbnail image_bytes) as [buffered|e]; [|discriminate].
  rewrite bind_Ok in H. apply Ok_inj in H. subst thumbnail.
  exists buffered. split; [reflexivity|].
  destruct (b64encode_text buffered) as [Hchars Hlen].
  split; [exact Hchars|]. split; [exact Hlen | apply b64decode_b64encode].
Qed.

Lemma create_thumbnail_is_base64_witness :
  exists buffered,
    sample_png sample_image = Ok buffered
    /\ string_forall is_base64_char "cGl4ZWxz" = true
    /\ String.length "cGl4ZWxz" = (4 * ((length buffered + 2) / 3))%nat
    /\ Base64.b64decode "cGl4ZWxz" = Ok buffered.
Proof.
  apply (create_thumbnail_is_base64 sample_png sample_image "cGl4ZWxz").
  vm_compute. reflexivity.
Defined.

(** X23. The signature text [sign_art] returns is made of base64
    characters only, four for every three bytes of the signature started,
    and decoding it gives back the bytes the signing key produced. *)
Theorem sign_art_is_base64 {E : Ecdsa} (sk : SigningKey) (entropy : bytes)
    (art_hash : string) :
  string_forall is_base64_char (sign_art sk entropy art_hash) = true
  /\ String.length (sign_art sk entropy art_hash)
     = (4 * ((length (sk_sign sk entropy (encode art_hash)) + 2) / 3))%nat
  /\ Base64.b64decode (sign_art sk entropy art_hash)
     = Ok (sk_sign sk entropy (encode art_hash)).
Proof.
  unfold sign_art. cbv zeta.
  destruct (b64encode_text (sk_sign sk entropy (encode art_hash))) as [Hchars Hlen].
  split; [exact Hchars|]. split; [exact Hlen | apply b64decode_b64encode].
Qed.

(** X24. [verify_signature] passes over every ASCII character of the
    signature text that is not a base64 character: with such a character
    put in anywhere, a space or a line break for instance, the answer is
    the same. *)
Theorem verify_signature_skips_junk {E : Ecdsa} (vk : VerifyingKey)
    (art_hash pre post : string) (c : ascii) :
  is_base64_char c = false -> code_point c < 128 ->
  verify_signature vk art_hash (pre +:+ String c post)
  = verify_signature vk art_hash (pre +:+ post).
Proof.
  intros Hjunk Hascii. unfold verify_signature. f_equal. f_equal.
  unfold Base64.b64decode. rewrite !list_ascii_of_append.
  cbn [list_ascii_of_string]. rewrite !List.map_app. cbn [List.map].
  unfold is_base64_char in Hjunk. cbv zeta in Hjunk.
  destruct (Base64.table_a2b (code_point c)) eqn:Htable; [discriminate|].
  apply Z.eqb_neq in Hjunk.
  rewrite (a2b_junk _ _ _ _ _ _ _ Htable Hjunk).
  rewrite !forallb_app. cbn [forallb].
  apply Z.ltb_lt in Hascii. rewrite Hascii. reflexivity.
Qed.

Lemma verify_signature_skips_junk_witness :
  verify_signature (E := toy_ecdsa) "A"%byte "abc123" ("QWFi" +:+ String " " "YzEyMw==")
  = verify_signature (E := toy_ecdsa) "A"%byte "abc123" ("QWFi" +:+ "YzEyMw==").
Proof.
  apply (verify_signature_skips_junk (E := toy_ecdsa) "A"%byte "abc123" "QWFi" "YzEyMw=="
           " "%char).
  - reflexivity.
  - reflexivity.
Defined.

(** X25. A signature text with a character that is not ASCII is refused:
    [verify_signature] returns [False] without asking the key. *)
Theorem verify_signature_rejects_non_ascii {E : Ecdsa} (vk : VerifyingKey)
    (art_hash signature : string) :
  string_forall (fun c => code_point c <? 128) signature = false ->
  verify_signature vk art_hash signature = Ok false.
Proof.
  intros H. apply (verify_signature_undecodable _ _ _ ValueError).
  unfold Base64.b64decode.
  assert (forallb (fun c => c <? 128)
                  (List.map code_point (list_ascii_of_string signature)) = false) as ->;
    [|reflexivity].
  revert H. induction signature as [|c s IH]; cbn [string_forall list_ascii_of_string
                                                   List.map forallb]; [discriminate|].
  destruct (code_point c <? 128); [exact IH | reflexivity].
Qed.

Lemma verify_signature_rejects_non_ascii_witness :
  verify_signature (E := toy_ecdsa) "A"%byte "abc123" (String (chr 233) "QWFiYzEyMw==")
  = Ok false.
Proof.
  apply (verify_signature_rejects_non_ascii (E := toy_ecdsa)). reflexivity.
Defined.

(** ** The order of dictionary keys *)

Lemma string_compare_lt_trans (s1 s2 s3 : string) :
  String.compare s1 s2 = Lt -> String.compare s2 s3 = Lt -> String.compare s1 s3 = Lt.
Proof.
  revert s2 s3. induction s1 as [|a s1 IH]; intros [|b s2] [|c s3];
    cbn [String.compare]; try discriminate; try reflexivity.
  destruct (Ascii.compare a b) eqn:Hab; try discriminate.
  - apply Ascii.compare_eq_iff in Hab. subst b.
    destruct (Ascii.compare a c); try discriminate; [apply IH | reflexivity].
  - intros _. destruct (Ascii.compare b c) eqn:Hbc; try discriminate; intros _.
    + apply Ascii.compare_eq_iff in Hbc. subst c. rewrite Hab. reflexivity.
    + assert (Ascii.compare a c = Lt) as ->; [|reflexivity].
      unfold Ascii.compare in *. rewrite N.compare_lt_iff in *. lia.
Qed.

Lemma string_ltb_trans (s1 s2 s3 : string) :
  String.ltb s1 s2 = true -> String.ltb s2 s3 = true -> String.ltb s1 s3 = true.
Proof.
  unfold String.ltb. intros H12 H23.
  destruct (String.compare s1 s2) eqn:E12; try discriminate.
  destruct (String.compare s2 s3) eqn:E23; try discriminate.
  rewrite (string_compare_lt_trans _ _ _ E12 E23). reflexivity.
Qed.

Lemma string_ltb_asym (s1 s2 : string) :
  String.ltb s1 s2 = true -> String.ltb s2 s1 = true -> False.
Proof.
  unfold String.ltb. rewrite (String.compare_antisym s2 s1).
  destruct (String.compare s1 s2); cbn; discriminate.
Qed.

Lemma string_ltb_total (s1 s2 : string) :
  String.ltb s1 s2 = false -> s1 <> s2 -> String.ltb s2 s1 = true.
Proof.
  unfold String.ltb. rewrite (String.compare_antisym s2 s1). intros H Hne.
  destruct (String.compare s1 s2) eqn:E; cbn; try discriminate; [|reflexivity].
  apply String.compare_eq_iff in E. contradiction.
Qed.

Section KeyOrder.
Context {A : Type}.

Lemma insert_item_perm (x : string * A) (l : list (string * A)) :
  Permutation (insert_item x l) (x :: l).
Proof.
  induction l as [|y l IH]; cbn [insert_item]; [reflexivity|].
  destruct (String.ltb (fst x) (fst y)); [reflexivity|].
  rewrite IH. apply perm_swap.
Qed.

Lemma insert_item_sorted (x : string * A) (l : list (string * A)) :
  StronglySorted key_before l -> Forall (fun y => fst y <> fst x) l ->
  StronglySorted key_before (insert_item x l).
Proof.
  induction 1 as [|y l Hl IH Hy]; intros Hx; cbn [insert_item].
  - repeat constructor.
  - inversion Hx as [|? ? Hyx Hx']; subst.
    destruct (String.ltb (fst x) (fst y)) eqn:Hlt.
    + constructor; [constructor; assumption|].
      constructor; [exact Hlt|].
      eapply Forall_impl; [exact Hy|]. intros z Hz. cbv beta in Hz.
      exact (string_ltb_trans _ _ _ Hlt Hz).
    + constructor; [apply IH; exact Hx'|].
      rewrite (insert_item_perm x l). constructor; [|exact Hy].
      apply string_ltb_total; [exact Hlt | congruence].
Qed.

Lemma sort_items_loop (l acc : list (string * A)) :
  StronglySorted key_before acc -> List.NoDup (List.map fst (acc ++ l)) ->
  StronglySorted key_before (fold_left (fun acc x => insert_item x acc) l acc)
  /\ Permutation (fold_left (fun acc x => insert_item x acc) l acc) (acc ++ l).
Proof.
  revert acc. induction l as [|x l IH]; intros acc Hacc Hkeys; cbn [fold_left].
  - rewrite app_nil_r. split; [exact Hacc | reflexivity].
  - assert (Permutation (insert_item x acc ++ l) (acc ++ x :: l)) as Hperm.
    { rewrite insert_item_perm. cbn [app]. apply Permutation_middle. }
    destruct (IH (insert_item x acc)) as [Hsorted Hp].
    + apply insert_item_sorted; [exact Hacc|].
      apply List.Forall_forall. intros y Hy Heq.
      rewrite List.map_app in Hkeys. cbn [List.map] in Hkeys.
      apply List.NoDup_remove_2 in Hkeys. apply Hkeys.
      apply in_or_app. left. rewrite <- Heq. apply in_map. exact Hy.
    + eapply Permutation_NoDup; [|exact Hkeys].
      apply Permutation_map. symmetry. exact Hperm.
    + split; [exact Hsorted|]. rewrite Hp. exact Hperm.
Qed.

(** With every key once, the sorted items do not depend on the order the
    items came in. *)
Lemma sort_items_perm (l1 l2 : list (string * A)) :
  Permutation l1 l2 -> List.NoDup (List.map fst l1) -> sort_items l1 = sort_items l2.
Proof.
  intros Hperm Hkeys. unfold sort_items.
  destruct (sort_items_loop l1 [] (SSorted_nil _) Hkeys) as [Hs1 Hp1].
  destruct (sort_items_loop l2 [] (SSorted_nil _)) as [Hs2 Hp2].
  { cbn [app]. eapply Permutation_NoDup; [|exact Hkeys].
    apply Permutation_map. exact Hperm. }
  cbn [app] in Hp1, Hp2.
  apply (StronglySorted_unique_strong key_before); [|exact Hs1|exact Hs2|].
  - intros x1 x2 _ _ H12 H21. destruct (string_ltb_asym _ _ H12 H21).
  - rewrite Hp1, Hp2. exact Hperm.
Qed.

End KeyOrder.

Section App3KeyOrder.
Import App3.

(** X26. The hash of a block does not depend on the order of the keys in
    its metadata: with the same entries in another order [compute_hash]
    returns the same digest. *)
Theorem compute_hash_ignores_metadata_order (b : Block) (m m' : dict) :
  metadata b = JObj m -> List.NoDup (List.map fst m) -> Permutation m m' ->
  compute_hash (set_metadata b (JObj m')) = compute_hash b.
Proof.
  intros Hm Hkeys Hperm.
  change (SHA256.hexdigest (hashed_bytes (set_metadata b (JObj m')))
          = SHA256.hexdigest (hashed_bytes b)).
  f_equal. unfold hashed_bytes. f_equal.
  apply dumps_inj. apply same_attributes_iff.
  destruct b as [i t a o p s md ph n h]. cbn [metadata] in Hm. subst md.
  cbn [set_metadata index timestamp art_hash owner_name owner_pubkey signature
       metadata previous_hash nonce hash].
  repeat split; try reflexivity.
  unfold same_value. cbn [canon]. f_equal. symmetry.
  apply sort_items_perm.
  - apply Permutation_map. exact Hperm.
  - rewrite List.map_map. cbn [fst]. exact Hkeys.
Qed.

Lemma compute_hash_ignores_metadata_order_witness :
  compute_hash (set_metadata
                  (Block_init (JInt 1) (JStr "t") (JStr "a") (JStr "o") (JStr "k") (JStr "s")
                              (JObj [("title", JStr "x"); ("category", JStr "y")])
                              (JStr "p"))
                  (JObj [("category", JStr "y"); ("title", JStr "x")]))
  = compute_hash (Block_init (JInt 1) (JStr "t") (JStr "a") (JStr "o") (JStr "k") (JStr "s")
                             (JObj [("title", JStr "x"); ("category", JStr "y")])
                             (JStr "p")).
Proof.
  apply (compute_hash_ignores_metadata_order _ [("title", JStr "x"); ("category", JStr "y")]).
  - reflexivity.
  - cbn [List.map fst]. apply List.NoDup_cons; [|apply List.NoDup_cons].
    + intros [H|[]]. discriminate H.
    + intros [].
    + apply List.NoDup_nil.
  - apply perm_swap.
Defined.

End App3KeyOrder.
